(** * Task manager: a shallow embedding of [src/task_manager.py]

    The development follows the Python module top to bottom: the string
    helpers it relies on, the [Task] record with its constructor,
    serialisation and overdue check, then the [TaskManager] store with
    whole-file persistence. *)

From Stdlib Require Import ZArith Ascii String.
From stdpp Require Import gmap strings list.

Set Warnings "-register-all".
Local Open Scope Z_scope.

(** ** Python strings

    A [str] is modelled as a Rocq [string] whose characters are the code
    points below 256.  [isspace] is Python's whitespace test on that range
    (the characters [str.strip()] removes). *)

Definition isspace (c : ascii) : bool :=
  let n := N_of_ascii c in
  ((9 <=? n) && (n <=? 13) || (28 <=? n) && (n <=? 32)
   || (n =? 133) || (n =? 160))%N.

Fixpoint lstrip (s : string) : string :=
  match s with
  | EmptyString => EmptyString
  | String c s' => if isspace c then lstrip s' else s
  end.

Fixpoint rstrip (s : string) : string :=
  match s with
  | EmptyString => EmptyString
  | String c s' =>
      match rstrip s' with
      | EmptyString => if isspace c then EmptyString else String c EmptyString
      | r => String c r
      end
  end.

(** [s.strip()] *)
Definition strip (s : string) : string := rstrip (lstrip s).

(** Every character of [s] is whitespace ([s] may be empty). *)
Fixpoint all_whitespace (s : string) : bool :=
  match s with
  | EmptyString => true
  | String c s' => isspace c && all_whitespace s'
  end.

(** Truth value of a [str]: only the empty string is falsy. *)
Definition str_truthy (s : string) : bool :=
  match s with EmptyString => false | _ => true end.

(** ** Exceptions and results *)

Inductive exn : Type :=
  | ValueError
  | KeyError
  | TypeError
  | AttributeError
  | JSONDecodeError
  | OverflowError.

(** Outcome of a call that may raise.  [Untyped] marks an input that
    carries a value outside the annotated type of a [Task] field; the
    Python code stores such values unchecked and the model makes no
    statement about them. *)
Inductive result (A : Type) : Type :=
  | Ok (a : A)
  | Raise (e : exn)
  | Untyped.
Arguments Ok {A} a.
Arguments Raise {A} e.
Arguments Untyped {A}.

#[global] Instance result_bind : MBind result := fun A B k r =>
  match r with
  | Ok a => k a
  | Raise e => Raise e
  | Untyped => Untyped
  end.

(** ** [TaskPriority] and [TaskStatus] *)

Definition LOW : string := "low".
Definition MEDIUM : string := "medium".
Definition HIGH : string := "high".
Definition CRITICAL : string := "critical".

Definition TODO : string := "todo".
Definition IN_PROGRESS : string := "in_progress".
Definition COMPLETED : string := "completed".
Definition CANCELLED : string := "cancelled".

(** ** [datetime]

    A [datetime] is a wall-clock reading (in microseconds) together with
    an optional UTC offset: [None] for a naive value, as returned by
    [datetime.now()].  Ordering a naive value against an aware one raises
    [TypeError] in Python, which [dt_lt] reports as [None]. *)

Record datetime : Type := mkDatetime {
  wall : Z;
  utcoffset : option Z
}.

Definition datetime_now (clock : Z) : datetime :=
  {| wall := clock; utcoffset := None |}.

Definition dt_lt (a b : datetime) : option bool :=
  match utcoffset a, utcoffset b with
  | None, None => Some (wall a <? wall b)
  | Some oa, Some ob => Some (wall a - oa <? wall b - ob)
  | _, _ => None
  end.

(** ** [Task] *)

Record Task : Type := mkTask {
  title : string;
  description : string;
  priority : string;
  status : string;
  due_date : option string;
  task_id : option Z;
  created_at : string;
  updated_at : string
}.

(** [Task.__init__]; [now] is the value of [datetime.now().isoformat()]
    read during the call. *)
Definition Task_init (now : string) (title description priority status : string)
    (due_date : option string) (task_id : option Z) : result Task :=
  if negb (str_truthy title) || negb (str_truthy (strip title)) then
    Raise ValueError
  else
    Ok {| title := strip title;
          description := strip description;
          priority := priority;
          status := status;
          due_date := due_date;
          task_id := task_id;
          created_at := now;
          updated_at := now |}.

(** In-place assignments to one attribute of a task. *)
Definition set_title (t : Task) (v : string) : Task :=
  mkTask v (description t) (priority t) (status t) (due_date t) (task_id t)
         (created_at t) (updated_at t).
Definition set_description (t : Task) (v : string) : Task :=
  mkTask (title t) v (priority t) (status t) (due_date t) (task_id t)
         (created_at t) (updated_at t).
Definition set_priority (t : Task) (v : string) : Task :=
  mkTask (title t) (description t) v (status t) (due_date t) (task_id t)
         (created_at t) (updated_at t).
Definition set_status (t : Task) (v : string) : Task :=
  mkTask (title t) (description t) (priority t) v (due_date t) (task_id t)
         (created_at t) (updated_at t).
Definition set_due_date (t : Task) (v : option string) : Task :=
  mkTask (title t) (description t) (priority t) (status t) v (task_id t)
         (created_at t) (updated_at t).
Definition set_created_at (t : Task) (v : string) : Task :=
  mkTask (title t) (description t) (priority t) (status t) (due_date t)
         (task_id t) v (updated_at t).
Definition set_updated_at (t : Task) (v : string) : Task :=
  mkTask (title t) (description t) (priority t) (status t) (due_date t)
         (task_id t) (created_at t) v.

(** ** JSON values

    What [json.load] returns and [json.dump] accepts; a [dict] with string
    keys is a finite map. *)

Inductive json : Type :=
  | JNull
  | JBool (b : bool)
  | JInt (n : Z)
  | JStr (s : string)
  | JList (l : list json)
  | JDict (d : gmap string json).

Definition json_of_opt {A : Type} (f : A -> json) (o : option A) : json :=
  match o with
  | Some a => f a
  | None => JNull
  end.

(** Reading a value at the annotated type of the field it is stored in. *)
Definition as_str (v : json) : option string :=
  match v with JStr s => Some s | _ => None end.
Definition as_int (v : json) : option Z :=
  match v with JInt n => Some n | _ => None end.
Definition as_opt_str (v : json) : option (option string) :=
  match v with JNull => Some None | JStr s => Some (Some s) | _ => None end.
Definition as_opt_int (v : json) : option (option Z) :=
  match v with JNull => Some None | JInt n => Some (Some n) | _ => None end.

Definition typed {A : Type} (o : option A) : result A :=
  match o with
  | Some a => Ok a
  | None => Untyped
  end.

(** [data.get(key, dflt)] *)
Definition dict_get (data : gmap string json) (key : string) (dflt : json) : json :=
  default dflt (data !! key).

(** [Task.to_dict] *)
Definition to_dict (t : Task) : gmap string json :=
  {[ "task_id" := json_of_opt JInt (task_id t);
     "title" := JStr (title t);
     "description" := JStr (description t);
     "priority" := JStr (priority t);
     "status" := JStr (status t);
     "due_date" := json_of_opt JStr (due_date t);
     "created_at" := JStr (created_at t);
     "updated_at" := JStr (updated_at t) ]}.

(** [Task.from_dict]; [now] is the clock reading of the constructor call. *)
Definition from_dict (now : string) (data : gmap string json) : result Task :=
  match data !! "title" with
  | None => Raise KeyError
  | Some vtitle =>
      title ← typed (as_str vtitle);
      description ← typed (as_str (dict_get data "description" (JStr "")));
      priority ← typed (as_str (dict_get data "priority" (JStr MEDIUM)));
      status ← typed (as_str (dict_get data "status" (JStr TODO)));
      due_date ← typed (as_opt_str (dict_get data "due_date" JNull));
      task_id ← typed (as_opt_int (dict_get data "task_id" JNull));
      task ← Task_init now title description priority status due_date task_id;
      created ← typed (as_str (dict_get data "created_at" (JStr (created_at task))));
      let task := set_created_at task created in
      updated ← typed (as_str (dict_get data "updated_at" (JStr (updated_at task))));
      Ok (set_updated_at task updated)
  end.

(** Outcome of [dateutil.parser.parse], an external library, on a due
    date: a datetime; a [ValueError] or [TypeError], which [is_overdue]
    catches; or an [OverflowError], which it does not catch. *)
Inductive parsed : Type :=
  | Parsed (due : datetime)
  | ParseError
  | ParseOverflow.

(** [Task.is_overdue].  The parser is a parameter [parse]: it fills the
    fields a text leaves out from the current date, so it takes the clock
    reading [today] it sees; [clock] is the later reading of
    [datetime.now()] in the comparison. *)
Definition is_overdue (parse : Z -> string -> parsed) (today clock : Z) (t : Task) :
    result bool :=
  match due_date t with
  | None => Ok false
  | Some s =>
      if negb (str_truthy s) then Ok false
      else
        match parse today s with
        | ParseError => Ok false
        | ParseOverflow => Raise OverflowError
        | Parsed due =>
            match dt_lt due (datetime_now clock) with
            | None => Ok false
            | Some before => Ok (before && negb (String.eqb (status t) COMPLETED))
            end
        end
  end.

(** ** The backing file

    The file is modelled by what [json.load] makes of its text: a JSON
    document, or text that the decoder rejects.  [writes] counts the times
    the file has been opened for writing. *)

Inductive file : Type :=
  | Malformed (raw : string)
  | Document (data : json).

Record storage : Type := mkStorage {
  content : option file;
  writes : nat
}.

(** ** [TaskManager] *)

Record TaskManager : Type := mkTaskManager {
  tasks : list Task;
  next_id : Z
}.

(** Iterating over a JSON value, as the list comprehension of
    [_load_tasks] does: a dict yields its keys, a string its characters. *)
Definition json_iter (v : json) : result (list json) :=
  match v with
  | JList l => Ok l
  | JDict d => Ok (JStr <$> (map_to_list d).*1)
  | JStr s => Ok ((fun c => JStr (String c EmptyString)) <$> list_ascii_of_string s)
  | _ => Raise TypeError
  end.

(** [Task.from_dict(task_data)] on an element of the stored sequence;
    subscripting anything but a dict with ["title"] raises [TypeError]. *)
Definition from_dict_json (now : string) (v : json) : result Task :=
  match v with
  | JDict data => from_dict now data
  | _ => Raise TypeError
  end.

(** [[Task.from_dict(task_data) for task_data in ...]]; the [i]-th
    constructor call reads [clock i]. *)
Fixpoint load_all (clock : nat -> string) (i : nat) (l : list json) : result (list Task) :=
  match l with
  | [] => Ok []
  | v :: l' =>
      t ← from_dict_json (clock i) v;
      ts ← load_all clock (S i) l';
      Ok (t :: ts)
  end.

(** [TaskManager._load_tasks] *)
Definition _load_tasks (clock : nat -> string) (fs : storage) (self : TaskManager) :
    result TaskManager :=
  match content fs with
  | None => Ok self
  | Some (Malformed _) => Raise JSONDecodeError
  | Some (Document (JDict data)) =>
      match data !! "tasks" with
      | None => Raise KeyError
      | Some stored =>
          items ← json_iter stored;
          loaded ← load_all clock 0 items;
          next ← typed (as_int (dict_get data "next_id" (JInt 1)));
          Ok {| tasks := loaded; next_id := next |}
      end
  | Some (Document _) => Raise TypeError
  end.

(** [TaskManager.__init__] *)
Definition TaskManager_init (clock : nat -> string) (fs : storage) : result TaskManager :=
  _load_tasks clock fs {| tasks := []; next_id := 1 |}.

(** The document [_save_tasks] hands to [json.dump]. *)
Definition dump (self : TaskManager) : json :=
  JDict {[ "tasks" := JList ((fun t => JDict (to_dict t)) <$> tasks self);
           "next_id" := JInt (next_id self) ]}.

(** [TaskManager._save_tasks]: the whole file is rewritten. *)
Definition _save_tasks (self : TaskManager) (fs : storage) : storage :=
  {| content := Some (Document (dump self)); writes := S (writes fs) |}.

(** [TaskManager.add_task]; the status is the constructor's default. *)
Definition add_task (now : string) (self : TaskManager) (fs : storage)
    (title description priority : string) (due_date : option string) :
    result (Task * TaskManager * storage) :=
  task ← Task_init now title description priority TODO due_date (Some (next_id self));
  let self' := {| tasks := tasks self ++ [task]; next_id := next_id self + 1 |} in
  Ok (task, self', _save_tasks self' fs).

(** [task.task_id == task_id] *)
Definition has_id (id : Z) (t : Task) : bool :=
  match task_id t with
  | Some n => n =? id
  | None => false
  end.

(** [TaskManager.get_task]: the first task carrying the identifier. *)
Definition get_task (self : TaskManager) (task_id : Z) : option Task :=
  List.find (has_id task_id) (tasks self).

(** The task object found by [get_task] is mutated where it sits in the
    list: [f] is applied to the first task carrying [id]. *)
Fixpoint update_first (f : Task -> Task) (id : Z) (l : list Task) : list Task :=
  match l with
  | [] => []
  | t :: l' => if has_id id t then f t :: l' else t :: update_first f id l'
  end.

(** The assignments of [update_task] on the task found. *)
Definition apply_update (now : string) (title description priority status due_date : option string)
    (task : Task) : Task :=
  let task := match title with Some v => set_title task (strip v) | None => task end in
  let task := match description with Some v => set_description task (strip v) | None => task end in
  let task := match priority with Some v => set_priority task v | None => task end in
  let task := match status with Some v => set_status task v | None => task end in
  let task := match due_date with Some v => set_due_date task (Some v) | None => task end in
  set_updated_at task now.

(** [TaskManager.update_task] *)
Definition update_task (now : string) (self : TaskManager) (fs : storage) (task_id : Z)
    (title description priority status due_date : option string) :
    bool * TaskManager * storage :=
  match get_task self task_id with
  | None => (false, self, fs)
  | Some _ =>
      let self' :=
        {| tasks := update_first (apply_update now title description priority status due_date)
                                 task_id (tasks self);
           next_id := next_id self |} in
      (true, self', _save_tasks self' fs)
  end.

(** [self.tasks.remove(task)] for the task found by [get_task]. *)
Fixpoint remove_first (id : Z) (l : list Task) : list Task :=
  match l with
  | [] => []
  | t :: l' => if has_id id t then l' else t :: remove_first id l'
  end.

(** [TaskManager.delete_task] *)
Definition delete_task (self : TaskManager) (fs : storage) (task_id : Z) :
    bool * TaskManager * storage :=
  match get_task self task_id with
  | None => (false, self, fs)
  | Some _ =>
      let self' := {| tasks := remove_first task_id (tasks self); next_id := next_id self |} in
      (true, self', _save_tasks self' fs)
  end.

(** Truth value of an [Optional[str]] argument. *)
Definition opt_truthy (o : option string) : bool :=
  match o with
  | Some s => str_truthy s
  | None => false
  end.

Definition status_is (v : string) (t : Task) : bool := String.eqb (status t) v.
Definition priority_is (v : string) (t : Task) : bool := String.eqb (priority t) v.

(** [TaskManager.list_tasks] *)
Definition list_tasks (self : TaskManager) (status priority : option string) : list Task :=
  let filtered_tasks := tasks self in
  let filtered_tasks :=
    match status with
    | Some v => if str_truthy v then List.filter (status_is v) filtered_tasks
                else filtered_tasks
    | None => filtered_tasks
    end in
  let filtered_tasks :=
    match priority with
    | Some v => if str_truthy v then List.filter (priority_is v) filtered_tasks
                else filtered_tasks
    | None => filtered_tasks
    end in
  filtered_tasks.

(** ** Sequences of store operations *)

Inductive op : Type :=
  | Add (now title description priority : string) (due_date : option string)
  | Update (now : string) (task_id : Z) (title description priority status due_date : option string)
  | Delete (task_id : Z).

(** One call on the store; an [add_task] that raises leaves it as it was. *)
Definition step (st : TaskManager * storage) (o : op) : TaskManager * storage :=
  match o with
  | Add now title description priority due_date =>
      match add_task now st.1 st.2 title description priority due_date with
      | Ok (_, self', fs') => (self', fs')
      | _ => st
      end
  | Update now task_id title description priority status due_date =>
      let '(_, self', fs') :=
        update_task now st.1 st.2 task_id title description priority status due_date in
      (self', fs')
  | Delete task_id =>
      let '(_, self', fs') := delete_task st.1 st.2 task_id in
      (self', fs')
  end.

Definition run (st : TaskManager * storage) (ops : list op) : TaskManager * storage :=
  fold_left step ops st.

(** The store built over an absent backing file. *)
Definition empty_store : TaskManager := {| tasks := []; next_id := 1 |}.
Definition no_file : storage := {| content := None; writes := 0 |}.

(** An [add_task] call whose title passes the constructor's check. *)
Definition valid_add (o : op) : Prop :=
  match o with
  | Add _ title _ _ _ => strip title <> EmptyString
  | _ => False
  end.

(** Identifiers in the store are distinct and below [next_id]. *)
Definition ids_fresh (self : TaskManager) : Prop :=
  NoDup (task_id <$> tasks self) /\
  Forall (fun t => exists n, task_id t = Some n /\ n < next_id self) (tasks self).

(** [id] has been handed out and is carried by no task. *)
Definition retired (id : Z) (self : TaskManager) : Prop :=
  id < next_id self /\ Forall (fun t => task_id t <> Some id) (tasks self).

(** A task that survives a reload unchanged: the constructor run by
    [from_dict] accepts its title and has nothing left to trim. *)
Definition storable (t : Task) : Prop :=
  title t <> EmptyString /\ strip (title t) = title t /\
  strip (description t) = description t.

(** Title and description are as [strip] leaves them. *)
Definition trimmed (t : Task) : Prop :=
  strip (title t) = title t /\ strip (description t) = description t.

(** ** Reading a task mapping at its field types *)

Definition is_str (v : json) : bool :=
  match v with JStr _ => true | _ => false end.
Definition is_opt_str (v : json) : bool :=
  match v with JNull | JStr _ => true | _ => false end.
Definition is_opt_int (v : json) : bool :=
  match v with JNull | JInt _ => true | _ => false end.
Definition is_scalar (v : json) : bool :=
  match v with JList _ | JDict _ => false | _ => true end.

(** [key] is missing from [data] or holds a value accepted by [ok]. *)
Definition key_ok (ok : json -> bool) (data : gmap string json) (key : string) : bool :=
  match data !! key with
  | None => true
  | Some v => ok v
  end.

(** Every optional key that is present holds a value of its field's
    annotated type. *)
Definition optional_keys_typed (data : gmap string json) : bool :=
  key_ok is_str data "description" && key_ok is_str data "priority" &&
  key_ok is_str data "status" && key_ok is_opt_str data "due_date" &&
  key_ok is_opt_int data "task_id" && key_ok is_str data "created_at" &&
  key_ok is_str data "updated_at".

(** The string stored under [key], or [dflt] when the key is missing. *)
Definition str_field (data : gmap string json) (key dflt : string) : string :=
  match data !! key with
  | Some (JStr s) => s
  | _ => dflt
  end.
Definition opt_str_field (data : gmap string json) (key : string) : option string :=
  match data !! key with
  | Some (JStr s) => Some s
  | _ => None
  end.
Definition opt_int_field (data : gmap string json) (key : string) : option Z :=
  match data !! key with
  | Some (JInt n) => Some n
  | _ => None
  end.

(** ** Sample data used by the examples below *)

(** A stand-in for the date parser on five inputs: a naive timestamp,
    the same instant with an explicit UTC offset, a time of day, which is
    placed on the day of the clock reading, a number too large for a
    date, and unreadable text. *)
Definition parse_sample (today : Z) (s : string) : parsed :=
  if String.eqb s "2020-01-01T00:00:00" then
    Parsed {| wall := 1577836800000000; utcoffset := None |}
  else if String.eqb s "2020-01-01T00:00:00+00:00" then
    Parsed {| wall := 1577836800000000; utcoffset := Some 0 |}
  else if String.eqb s "10:00" then
    Parsed {| wall := today / 86400000000 * 86400000000 + 36000000000;
              utcoffset := None |}
  else if String.eqb s "99999999999999999999999999" then ParseOverflow
  else ParseError.

Definition sample_task : Task :=
  {| title := "Buy milk"; description := ""; priority := HIGH; status := CANCELLED;
     due_date := Some "2020-01-01T00:00:00"; task_id := Some 1;
     created_at := "2019-12-01T08:00:00"; updated_at := "2019-12-02T09:30:00" |}.

Definition sample_store : TaskManager :=
  {| tasks := [sample_task]; next_id := 2 |}.

(** ** The overdue listing *)

(** The list comprehension of [get_overdue_tasks]: the check of the task
    at position [i] sees the clock readings [clock i] (the parser's, then
    the comparison's); the first check that raises ends the listing. *)
Fixpoint overdue_from (parse : Z -> string -> parsed) (clock : nat -> Z * Z) (i : nat)
    (l : list Task) : result (list Task) :=
  match l with
  | [] => Ok []
  | t :: l' =>
      overdue ← is_overdue parse (clock i).1 (clock i).2 t;
      rest ← overdue_from parse clock (S i) l';
      Ok (if (overdue : bool) then t :: rest else rest)
  end.

(** [TaskManager.get_overdue_tasks] *)
Definition get_overdue_tasks (parse : Z -> string -> parsed) (clock : nat -> Z * Z)
    (self : TaskManager) : result (list Task) :=
  overdue_from parse clock 0 (tasks self).

(** The check says overdue. *)
Definition says_overdue (r : result bool) : bool :=
  match r with
  | Ok true => true
  | _ => false
  end.

(** ** Store-level predicates *)

(** Every task carries an identifier between 1 and [next_id - 1]. *)
Definition ids_in_range (self : TaskManager) : Prop :=
  Forall (fun t => exists n, task_id t = Some n /\ 1 <= n < next_id self) (tasks self).

(** The backing file holds exactly what [_save_tasks] writes for the
    store, or nothing has happened yet. *)
Definition synced (st : TaskManager * storage) : Prop :=
  st = (empty_store, no_file) \/
  (content st.2 = Some (Document (dump st.1)) /\ (0 < writes st.2)%nat).

(** A task passes a filter of [list_tasks]: the filter is falsy or equals
    the field. *)
Definition passes (flt : option string) (field : string) : bool :=
  match flt with
  | Some v => negb (str_truthy v) || String.eqb field v
  | None => true
  end.

Definition with_tasks (self : TaskManager) (l : list Task) : TaskManager :=
  {| tasks := l; next_id := next_id self |}.

(** ** The command line ([src/cli.py])

    Each command builds a [TaskManager] over the backing file and calls
    one method.  A run is modelled by the last message it prints (its
    interpolated values kept, wording and colours dropped), the exit
    status (0 when the command returns, 1 after [sys.exit(1)], 2 when
    click refuses the arguments) and the backing file it leaves. *)

Module cli.

(** The [colorama.Fore] colours the module uses. *)
Inductive color : Type := GREEN | YELLOW | MAGENTA | RED | CYAN | BLUE | WHITE.

(** [get_priority_color] *)
Definition get_priority_color (priority : string) : color :=
  let colors : gmap string color :=
    {[ LOW := GREEN; MEDIUM := YELLOW; HIGH := MAGENTA; CRITICAL := RED ]} in
  default WHITE (colors !! priority).

(** [get_status_color] *)
Definition get_status_color (status : string) : color :=
  let colors : gmap string color :=
    {[ TODO := CYAN; IN_PROGRESS := YELLOW; COMPLETED := GREEN; CANCELLED := RED ]} in
  default WHITE (colors !! status).

Inductive message : Type :=
  | TaskAdded (id : option Z)              (* "Task added with ID: ..." *)
  | TaskUpdated (id : Z)                   (* "Task ... updated successfully." *)
  | TaskDeleted (id : Z)                   (* "Task ... deleted successfully." *)
  | TaskCompleted (id : Z)                 (* "Task ... marked as completed!" *)
  | TaskNotFound (id : Z)                  (* "Task ... not found." *)
  | TaskDetails (t : Task) (overdue : bool) (* the fields, then the overdue warning *)
  | InvalidInput (e : exn)                 (* "Invalid input: ..." *)
  | CommandFailed (e : exn)                (* "Failed to ... task: ..." *)
  | UsageError.                            (* click's usage message *)

Record outcome : Type := mkOutcome {
  printed : message;
  exit_status : Z;
  disk : storage
}.

(** [except ValueError] also catches [json.JSONDecodeError], a subclass. *)
Definition is_ValueError (e : exn) : bool :=
  match e with
  | ValueError | JSONDecodeError => true
  | _ => false
  end.

(** The values [click.Choice] accepts for [--priority] of [add]. *)
Definition priority_choices : list string := [LOW; MEDIUM; HIGH; CRITICAL].

(** The [add] command.  click checks [--priority] against its choices
    before the body runs and exits with status 2 on any other value. *)
Definition add (clock : nat -> string) (now : string) (fs : storage)
    (title description priority : string) (due_date : option string) : result outcome :=
  if negb (bool_decide (priority ∈ priority_choices)) then
    Ok {| printed := UsageError; exit_status := 2; disk := fs |}
  else
    match manager ← TaskManager_init clock fs;
          add_task now manager fs title description priority due_date with
    | Ok (task, _, fs') =>
        Ok {| printed := TaskAdded (task_id task); exit_status := 0; disk := fs' |}
    | Raise e =>
        Ok {| printed := if is_ValueError e then InvalidInput e else CommandFailed e;
              exit_status := 1; disk := fs |}
    | Untyped => Untyped
    end.

(** The [show] command; [parse], [today] and [now] serve the overdue
    check, which runs after the fields have been printed: when it raises,
    the failure message follows them and the exit status is 1. *)
Definition show (parse : Z -> string -> parsed) (clock : nat -> string) (today now : Z)
    (fs : storage) (task_id : Z) : result outcome :=
  match TaskManager_init clock fs with
  | Ok manager =>
      match get_task manager task_id with
      | None => Ok {| printed := TaskNotFound task_id; exit_status := 0; disk := fs |}
      | Some task =>
          match is_overdue parse today now task with
          | Ok overdue =>
              Ok {| printed := TaskDetails task overdue; exit_status := 0; disk := fs |}
          | Raise e => Ok {| printed := CommandFailed e; exit_status := 1; disk := fs |}
          | Untyped => Untyped
          end
      end
  | Raise e => Ok {| printed := CommandFailed e; exit_status := 1; disk := fs |}
  | Untyped => Untyped
  end.

(** The [update] command. *)
Definition update (clock : nat -> string) (now : string) (fs : storage) (task_id : Z)
    (status priority title description due_date : option string) : result outcome :=
  match TaskManager_init clock fs with
  | Ok manager =>
      let '(success, _, fs') :=
        update_task now manager fs task_id title description priority status due_date in
      Ok {| printed := if success then TaskUpdated task_id else TaskNotFound task_id;
            exit_status := 0; disk := fs' |}
  | Raise e => Ok {| printed := CommandFailed e; exit_status := 1; disk := fs |}
  | Untyped => Untyped
  end.

(** The [delete] command, once the confirmation prompt has been answered
    with yes. *)
Definition delete (clock : nat -> string) (fs : storage) (task_id : Z) : result outcome :=
  match TaskManager_init clock fs with
  | Ok manager =>
      let '(success, _, fs') := delete_task manager fs task_id in
      Ok {| printed := if success then TaskDeleted task_id else TaskNotFound task_id;
            exit_status := 0; disk := fs' |}
  | Raise e => Ok {| printed := CommandFailed e; exit_status := 1; disk := fs |}
  | Untyped => Untyped
  end.

(** The [complete] command. *)
Definition complete (clock : nat -> string) (now : string) (fs : storage) (task_id : Z) :
    result outcome :=
  match TaskManager_init clock fs with
  | Ok manager =>
      let '(success, _, fs') :=
        update_task now manager fs task_id None None None (Some COMPLETED) None in
      Ok {| printed := if success then TaskCompleted task_id else TaskNotFound task_id;
            exit_status := 0; disk := fs' |}
  | Raise e => Ok {| printed := CommandFailed e; exit_status := 1; disk := fs |}
  | Untyped => Untyped
  end.

End cli.

(** A backing file as two [add] commands leave it, and the store it holds. *)
Definition sample_disk : storage :=
  (run (empty_store, no_file)
       [Add "2025-01-01T09:00:00" "Buy milk" "" HIGH (Some "2020-01-01T00:00:00");
        Add "2025-01-01T09:05:00" "Call dentist" "" MEDIUM None]).2.

Definition sample_first : Task :=
  {| title := "Buy milk"; description := ""; priority := HIGH; status := TODO;
     due_date := Some "2020-01-01T00:00:00"; task_id := Some 1;
     created_at := "2025-01-01T09:00:00"; updated_at := "2025-01-01T09:00:00" |}.

Definition sample_second : Task :=
  {| title := "Call dentist"; description := ""; priority := MEDIUM; status := TODO;
     due_date := None; task_id := Some 2;
     created_at := "2025-01-01T09:05:00"; updated_at := "2025-01-01T09:05:00" |}.

Definition sample_manager : TaskManager :=
  {| tasks := [sample_first; sample_second]; next_id := 3 |}.

(** * Properties *)

(** ** Stripping *)

Lemma lstrip_all_whitespace (s : string) :
  all_whitespace s = true -> lstrip s = EmptyString.
Proof.
  induction s as [|c s IH]; simpl; [done|].
  intros [Hc Hs]%andb_true_iff. rewrite Hc. auto.
Qed.

Lemma rstrip_head (c : ascii) (s : string) :
  isspace c = false -> exists r, rstrip (String c s) = String c r.
Proof.
  intros Hc. simpl. destruct (rstrip s) as [|c' r'].
  - rewrite Hc. by exists EmptyString.
  - by exists (String c' r').
Qed.

Lemma lstrip_head (s : string) :
  lstrip s = EmptyString \/
  exists c r, lstrip s = String c r /\ isspace c = false.
Proof.
  induction s as [|c s IH]; simpl; [by left|].
  destruct (isspace c) eqn:Hc; [done|]. right. by exists c, s.
Qed.

Lemma strip_empty_iff (s : string) :
  strip s = EmptyString <-> all_whitespace s = true.
Proof.
  unfold strip. split.
  - induction s as [|c s IH]; [done|]. cbn [lstrip all_whitespace].
    destruct (isspace c) eqn:Hc; [done|].
    destruct (rstrip_head c s Hc) as [r Hr]. rewrite Hr. done.
  - intros H. rewrite (lstrip_all_whitespace s H). done.
Qed.

Lemma rstrip_idem (s : string) : rstrip (rstrip s) = rstrip s.
Proof.
  induction s as [|c s IH]; simpl; [done|].
  destruct (rstrip s) as [|c' r'] eqn:Hr.
  - destruct (isspace c) eqn:Hc; simpl; [done|]. by rewrite Hc.
  - change (rstrip (String c (String c' r'))) with
      (match rstrip (String c' r') with
       | EmptyString => if isspace c then EmptyString else String c EmptyString
       | r => String c r
       end).
    rewrite IH. done.
Qed.

Lemma lstrip_fixed (c : ascii) (r : string) :
  isspace c = false -> lstrip (String c r) = String c r.
Proof. intros Hc. simpl. by rewrite Hc. Qed.

(** Stripping twice is stripping once: what the constructor stores is left
    alone by a later [strip]. *)
Lemma strip_idem (s : string) : strip (strip s) = strip s.
Proof.
  unfold strip. destruct (lstrip_head s) as [->|(c & r & -> & Hc)]; [done|].
  destruct (rstrip_head c r Hc) as [r' Hr]. rewrite Hr.
  rewrite (lstrip_fixed c r' Hc), <- Hr. apply rstrip_idem.
Qed.

Lemma str_truthy_false (s : string) : str_truthy s = false <-> s = EmptyString.
Proof. destruct s; simpl; split; done. Qed.

(** ** The constructor *)

Lemma title_check (s : string) :
  negb (str_truthy s) || negb (str_truthy (strip s)) = true <->
  strip s = EmptyString.
Proof.
  rewrite orb_true_iff, !negb_true_iff, !str_truthy_false. split.
  - intros [->|H]; done.
  - auto.
Qed.

Lemma Task_init_ok (now ttl desc prio st : string) (due : option string) (id : option Z) :
  strip ttl <> EmptyString ->
  Task_init now ttl desc prio st due id =
  Ok (mkTask (strip ttl) (strip desc) prio st due id now now).
Proof.
  intros H. unfold Task_init.
  destruct (negb (str_truthy ttl) || negb (str_truthy (strip ttl))) eqn:E; [|done].
  apply title_check in E. done.
Qed.

Lemma Task_init_raises (now ttl desc prio st : string) (due : option string) (id : option Z) :
  strip ttl = EmptyString ->
  Task_init now ttl desc prio st due id = Raise ValueError.
Proof.
  intros H. unfold Task_init. apply title_check in H. by rewrite H.
Qed.

(** C6: a title that is non-empty once trimmed gives a task whose title is
    the trimmed input, whose description is trimmed and whose two
    timestamps agree; an empty or all-whitespace title raises
    [ValueError]. *)
Theorem Task_init_spec (now ttl desc prio st : string) (due : option string) (id : option Z) :
  (strip ttl <> EmptyString ->
   exists t, Task_init now ttl desc prio st due id = Ok t /\
             title t = strip ttl /\ description t = strip desc /\
             priority t = prio /\ status t = st /\ due_date t = due /\
             task_id t = id /\ created_at t = now /\
             created_at t = updated_at t) /\
  (all_whitespace ttl = true ->
   Task_init now ttl desc prio st due id = Raise ValueError).
Proof.
  split.
  - intros H. rewrite (Task_init_ok _ _ _ _ _ _ _ H). eexists. split; [done|].
    simpl. split_and!; done.
  - intros H. apply Task_init_raises, strip_empty_iff, H.
Qed.

Lemma Task_init_spec_witness :
  strip "  Spaced Title  " <> EmptyString /\
  all_whitespace "   " = true /\
  (exists t, Task_init "2025-01-01T12:00:00" "  Spaced Title  " "  d  " MEDIUM TODO None None = Ok t /\
             title t = "Spaced Title" /\ description t = "d") /\
  Task_init "2025-01-01T12:00:00" "   " "" MEDIUM TODO None None = Raise ValueError.
Proof.
  split; [discriminate|]. split; [reflexivity|]. split.
  - destruct (Task_init_spec "2025-01-01T12:00:00" "  Spaced Title  " "  d  "
                MEDIUM TODO None None) as [H _].
    destruct H as (t & Ht & Htitle & Hdesc & _); [discriminate|].
    exists t. split; [exact Ht|]. split; [exact Htitle | exact Hdesc].
  - destruct (Task_init_spec "2025-01-01T12:00:00" "   " "" MEDIUM TODO None None)
      as [_ H].
    apply H. reflexivity.
Defined.

(** ** The overdue check *)

Lemma dt_lt_now_true (due : datetime) (clock : Z) :
  dt_lt due (datetime_now clock) = Some true <->
  utcoffset due = None /\ wall due < clock.
Proof.
  unfold dt_lt, datetime_now. simpl. destruct (utcoffset due); split.
  - done.
  - by intros [? _].
  - intros [= H]. split; [done|]. by apply Z.ltb_lt.
  - intros [_ H]. f_equal. by apply Z.ltb_lt.
Qed.

Section Overdue.

Variable parse : Z -> string -> parsed.

(** Exact characterisation of a positive answer of [is_overdue]. *)
Lemma is_overdue_true_iff (today clock : Z) (t : Task) :
  is_overdue parse today clock t = Ok true <->
  exists s due, due_date t = Some s /\ s <> EmptyString /\ parse today s = Parsed due /\
                dt_lt due (datetime_now clock) = Some true /\
                status t <> COMPLETED.
Proof.
  unfold is_overdue. split.
  - destruct (due_date t) as [s|]; [|discriminate].
    destruct s as [|c s']; simpl; [discriminate|].
    destruct (parse today (String c s')) as [due| |] eqn:Hp; [|discriminate|discriminate].
    destruct (dt_lt due (datetime_now clock)) as [b|] eqn:Hlt; [|discriminate].
    intros [= [-> Hst]%andb_true_iff].
    exists (String c s'), due. split_and!; try done.
    apply negb_true_iff, String.eqb_neq in Hst. done.
  - intros (s & due & -> & Hne & Hp & Hlt & Hst).
    destruct s as [|c s']; [done|]. simpl. rewrite Hp, Hlt. simpl. f_equal.
    apply negb_true_iff, String.eqb_neq. done.
Qed.



End Overdue.



(** ** Looking a task up *)

Lemma has_id_true (id : Z) (t : Task) : has_id id t = true <-> task_id t = Some id.
Proof.
  unfold has_id. destruct (task_id t) as [n|]; [|done].
  rewrite Z.eqb_eq. split; [by intros -> | by intros [= ->]].
Qed.

Lemma has_id_false (id : Z) (t : Task) : has_id id t = false <-> task_id t <> Some id.
Proof.
  rewrite <- has_id_true. destruct (has_id id t); split; done.
Qed.

Lemma get_task_None (self : TaskManager) (id : Z) :
  get_task self id = None <-> Forall (fun t => task_id t <> Some id) (tasks self).
Proof.
  unfold get_task. induction (tasks self) as [|t l IH]; simpl.
  - split; [constructor | done].
  - destruct (has_id id t) eqn:E.
    + split; [done|]. intros H. inversion H as [|? ? Hne _]; subst.
      apply has_id_true in E. done.
    + rewrite IH. apply has_id_false in E. split.
      * by constructor.
      * by inversion 1.
Qed.

(** The task found is the first one carrying the identifier. *)
Lemma get_task_Some (self : TaskManager) (id : Z) (t : Task) :
  get_task self id = Some t <->
  exists pre post, tasks self = pre ++ t :: post /\
                   Forall (fun x => task_id x <> Some id) pre /\
                   task_id t = Some id.
Proof.
  unfold get_task. induction (tasks self) as [|x l IH]; simpl.
  - split; [done|]. intros (pre & post & H & _). by destruct pre.
  - destruct (has_id id x) eqn:E.
    + split.
      * intros [= ->]. exists [], l. apply has_id_true in E. by split_and!.
      * intros (pre & post & H & Hpre & Hid). destruct pre as [|y pre]; simpl in H.
        { by injection H as ->. }
        injection H as -> _. inversion Hpre as [|? ? Hne _]; subst.
        apply has_id_true in E. done.
    + rewrite IH. apply has_id_false in E. split.
      * intros (pre & post & -> & Hpre & Hid). exists (x :: pre), post.
        split_and!; [done | by constructor | done].
      * intros (pre & post & H & Hpre & Hid). destruct pre as [|y pre]; simpl in H.
        { injection H as -> _. done. }
        injection H as -> ->. inversion Hpre; subst. by exists pre, post.
Qed.

Lemma get_task_is_Some (self : TaskManager) (id : Z) :
  (exists t, In t (tasks self) /\ task_id t = Some id) ->
  exists t, get_task self id = Some t.
Proof.
  intros (t & Hin & Hid). destruct (get_task self id) as [t'|] eqn:E; [by exists t'|].
  apply get_task_None in E. rewrite Forall_forall in E.
  apply list_elem_of_In in Hin. destruct (E t Hin Hid).
Qed.

Lemma update_first_split (f : Task -> Task) (id : Z) (pre post : list Task) (t : Task) :
  Forall (fun x => task_id x <> Some id) pre -> task_id t = Some id ->
  update_first f id (pre ++ t :: post) = pre ++ f t :: post.
Proof.
  intros Hpre Hid. induction Hpre as [|x pre Hx _ IH]; simpl.
  - apply has_id_true in Hid. by rewrite Hid.
  - apply has_id_false in Hx. by rewrite Hx, IH.
Qed.

Lemma remove_first_split (id : Z) (pre post : list Task) (t : Task) :
  Forall (fun x => task_id x <> Some id) pre -> task_id t = Some id ->
  remove_first id (pre ++ t :: post) = pre ++ post.
Proof.
  intros Hpre Hid. induction Hpre as [|x pre Hx _ IH]; simpl.
  - apply has_id_true in Hid. by rewrite Hid.
  - apply has_id_false in Hx. by rewrite Hx, IH.
Qed.

(** ** Loading *)

(** C9: over an absent backing file the store starts empty with
    [next_id = 1]; over a file whose text is not well-formed JSON the
    constructor raises the decoder's error, whatever the text. *)
Theorem TaskManager_init_absent_malformed (clock : nat -> string) (w : nat) (raw : string) :
  TaskManager_init clock {| content := None; writes := w |} =
    Ok {| tasks := []; next_id := 1 |} /\
  TaskManager_init clock {| content := Some (Malformed raw); writes := w |} =
    Raise JSONDecodeError.
Proof. split; reflexivity. Qed.

(** ** Updating *)

(** C4: updating an identifier that no task carries returns [false] and
    leaves the tasks, [next_id] and the backing file (its content and its
    write count) as they were. *)
Theorem update_task_absent (now : string) (self : TaskManager) (fs : storage) (id : Z)
    (ttl desc prio st due : option string) :
  Forall (fun t => task_id t <> Some id) (tasks self) ->
  update_task now self fs id ttl desc prio st due = (false, self, fs).
Proof.
  intros H. apply get_task_None in H. unfold update_task. by rewrite H.
Qed.

Lemma update_task_absent_witness :
  Forall (fun t => task_id t <> Some 999) (tasks sample_store) /\
  update_task "2025-01-01T12:00:00" sample_store no_file 999
              (Some "Should Fail") None None None None
  = (false, sample_store, no_file).
Proof.
  assert (H : Forall (fun t => task_id t <> Some 999) (tasks sample_store)).
  { repeat constructor. discriminate. }
  split; [exact H|].
  exact (update_task_absent "2025-01-01T12:00:00" sample_store no_file 999
           (Some "Should Fail") None None None None H).
Defined.

(** The task left by the assignments of [update_task]. *)
Lemma apply_update_fields (now : string) (ttl desc prio st due : option string) (t : Task) :
  apply_update now ttl desc prio st due t =
  {| title := match ttl with Some v => strip v | None => title t end;
     description := match desc with Some v => strip v | None => description t end;
     priority := match prio with Some v => v | None => priority t end;
     status := match st with Some v => v | None => status t end;
     due_date := match due with Some v => Some v | None => due_date t end;
     task_id := task_id t;
     created_at := created_at t;
     updated_at := now |}.
Proof. destruct t, ttl, desc, prio, st, due; reflexivity. Qed.

Lemma update_task_found (now : string) (self : TaskManager) (fs : storage) (id : Z)
    (ttl desc prio st due : option string) (pre post : list Task) (t : Task) :
  tasks self = pre ++ t :: post ->
  Forall (fun x => task_id x <> Some id) pre ->
  task_id t = Some id ->
  let self' := {| tasks := pre ++ apply_update now ttl desc prio st due t :: post;
                  next_id := next_id self |} in
  update_task now self fs id ttl desc prio st due = (true, self', _save_tasks self' fs).
Proof.
  intros Hsplit Hpre Hid. simpl. unfold update_task.
  assert (Hget : get_task self id = Some t).
  { apply get_task_Some. by exists pre, post. }
  rewrite Hget, Hsplit, (update_first_split _ _ _ _ _ Hpre Hid). done.
Qed.

(** C5: updating an identifier carried by a task returns [true]; the first
    task carrying it gets the supplied fields (title and description
    trimmed) and a fresh [updated_at], keeps its other fields, its
    identifier and [created_at]; the tasks before and after it and
    [next_id] are unchanged, and the new state is saved. *)
Theorem update_task_present (now : string) (self : TaskManager) (fs : storage) (id : Z)
    (ttl desc prio st due : option string) :
  (exists t, In t (tasks self) /\ task_id t = Some id) ->
  exists pre t post,
    tasks self = pre ++ t :: post /\
    Forall (fun x => task_id x <> Some id) pre /\
    task_id t = Some id /\
    let t' :=
      {| title := match ttl with Some v => strip v | None => title t end;
         description := match desc with Some v => strip v | None => description t end;
         priority := match prio with Some v => v | None => priority t end;
         status := match st with Some v => v | None => status t end;
         due_date := match due with Some v => Some v | None => due_date t end;
         task_id := task_id t;
         created_at := created_at t;
         updated_at := now |} in
    let self' := {| tasks := pre ++ t' :: post; next_id := next_id self |} in
    update_task now self fs id ttl desc prio st due = (true, self', _save_tasks self' fs).
Proof.
  intros [t Hget]%get_task_is_Some.
  destruct (proj1 (get_task_Some self id t) Hget) as (pre & post & Hsplit & Hpre & Hid).
  exists pre, t, post. split_and!; try done. simpl.
  rewrite <- apply_update_fields. by apply update_task_found.
Qed.

Lemma update_task_present_witness :
  (exists t, In t (tasks sample_store) /\ task_id t = Some 1) /\
  update_task "2025-01-01T12:00:00" sample_store no_file 1
              (Some "  New Title ") None None (Some COMPLETED) None =
  (true,
   {| tasks := [ {| title := "New Title"; description := ""; priority := HIGH;
                    status := COMPLETED; due_date := Some "2020-01-01T00:00:00";
                    task_id := Some 1; created_at := "2019-12-01T08:00:00";
                    updated_at := "2025-01-01T12:00:00" |} ];
      next_id := 2 |},
   _save_tasks
     {| tasks := [ {| title := "New Title"; description := ""; priority := HIGH;
                      status := COMPLETED; due_date := Some "2020-01-01T00:00:00";
                      task_id := Some 1; created_at := "2019-12-01T08:00:00";
                      updated_at := "2025-01-01T12:00:00" |} ];
        next_id := 2 |} no_file).
Proof.
  assert (H : exists t, In t (tasks sample_store) /\ task_id t = Some 1).
  { exists sample_task. split; [left; reflexivity | reflexivity]. }
  split; [exact H|].
  destruct (update_task_present "2025-01-01T12:00:00" sample_store no_file 1
              (Some "  New Title ") None None (Some COMPLETED) None H)
    as (pre & t & post & Hsplit & Hpre & Hid & Hupd).
  destruct pre as [|x pre]; simpl in Hsplit.
  - injection Hsplit as <- <-. exact Hupd.
  - injection Hsplit as _ Hnil. destruct pre; discriminate.
Defined.

(** C7: the update path does not check the new title: on a task that
    exists, an all-whitespace title is accepted, the call returns [true]
    and the task now found under that identifier has the empty title,
    which the constructor would have refused. *)
Theorem update_task_blank_title (now : string) (self : TaskManager) (fs : storage) (id : Z)
    (ttl : string) (desc prio st due : option string) :
  (exists t, In t (tasks self) /\ task_id t = Some id) ->
  all_whitespace ttl = true ->
  exists self' fs' t',
    update_task now self fs id (Some ttl) desc prio st due = (true, self', fs') /\
    get_task self' id = Some t' /\
    title t' = EmptyString /\
    Task_init now (title t') (description t') (priority t') (status t')
              (due_date t') (task_id t') = Raise ValueError.
Proof.
  intros [t Hget]%get_task_is_Some Hblank.
  destruct (proj1 (get_task_Some self id t) Hget) as (pre & post & Hsplit & Hpre & Hid).
  pose proof (update_task_found now self fs id (Some ttl) desc prio st due
                pre post t Hsplit Hpre Hid) as Hupd. simpl in Hupd.
  eexists _, _, (apply_update now (Some ttl) desc prio st due t).
  assert (Htitle : title (apply_update now (Some ttl) desc prio st due t) = EmptyString).
  { rewrite apply_update_fields. simpl. by apply strip_empty_iff. }
  split_and!; [exact Hupd | | exact Htitle |].
  - apply get_task_Some. exists pre, post. split_and!; [done | done |].
    rewrite apply_update_fields. done.
  - apply Task_init_raises. by rewrite Htitle.
Qed.

Lemma update_task_blank_title_witness :
  (exists t, In t (tasks sample_store) /\ task_id t = Some 1) /\
  all_whitespace "   " = true /\
  exists self' fs' t',
    update_task "2025-01-01T12:00:00" sample_store no_file 1 (Some "   ")
                None None None None = (true, self', fs') /\
    get_task self' 1 = Some t' /\ title t' = EmptyString.
Proof.
  assert (H : exists t, In t (tasks sample_store) /\ task_id t = Some 1).
  { exists sample_task. split; [left; reflexivity | reflexivity]. }
  split; [exact H|]. split; [reflexivity|].
  destruct (update_task_blank_title "2025-01-01T12:00:00" sample_store no_file 1 "   "
              None None None None H eq_refl)
    as (self' & fs' & t' & Hupd & Hget & Htitle & _).
  exists self', fs', t'. split; [exact Hupd|]. split; [exact Hget | exact Htitle].
Defined.

(** ** Identifier allocation *)

Lemma add_task_ok (now : string) (self : TaskManager) (fs : storage)
    (ttl desc prio : string) (due : option string) :
  strip ttl <> EmptyString ->
  let t := mkTask (strip ttl) (strip desc) prio TODO due (Some (next_id self)) now now in
  let self' := {| tasks := tasks self ++ [t]; next_id := next_id self + 1 |} in
  add_task now self fs ttl desc prio due = Ok (t, self', _save_tasks self' fs).
Proof.
  intros H. simpl. unfold add_task. rewrite (Task_init_ok _ _ _ _ _ _ _ H). done.
Qed.

Lemma add_task_inv (now : string) (self self' : TaskManager) (fs fs' : storage)
    (ttl desc prio : string) (due : option string) (t : Task) :
  add_task now self fs ttl desc prio due = Ok (t, self', fs') ->
  task_id t = Some (next_id self) /\
  self' = {| tasks := tasks self ++ [t]; next_id := next_id self + 1 |} /\
  fs' = _save_tasks self' fs.
Proof.
  unfold add_task, Task_init.
  destruct (negb (str_truthy ttl) || negb (str_truthy (strip ttl))); [discriminate|].
  simpl. intros [= <- <- <-]. done.
Qed.

Lemma run_cons (st : TaskManager * storage) (o : op) (ops : list op) :
  run st (o :: ops) = run (step st o) ops.
Proof. reflexivity. Qed.

(** Valid additions extend the list, in order, with consecutive
    identifiers starting at [next_id]. *)
Lemma run_valid_adds (ops : list op) (st : TaskManager * storage) :
  Forall valid_add ops ->
  exists new,
    tasks (run st ops).1 = tasks st.1 ++ new /\
    task_id <$> new = Some <$> seqZ (next_id st.1) (Z.of_nat (length ops)) /\
    next_id (run st ops).1 = next_id st.1 + Z.of_nat (length ops).
Proof.
  intros Hops. revert st. induction Hops as [|o ops Ho _ IH]; intros st.
  - exists []. simpl. rewrite app_nil_r. split_and!; [done | done | lia].
  - destruct o as [now ttl desc prio due| |]; simpl in Ho; try done.
    rewrite run_cons. simpl step.
    rewrite (add_task_ok now st.1 st.2 ttl desc prio due Ho).
    match goal with |- context [run (?s, ?f) ops] => destruct (IH (s, f)) as (new & Ht & Hids & Hn) end.
    simpl in Ht, Hids, Hn.
    eexists (_ :: new). rewrite Ht, Hn, <- app_assoc.
    split_and!; [done | | simpl; lia].
    rewrite fmap_cons, Hids, (seqZ_cons (next_id st.1)), fmap_cons by (simpl; lia).
    simpl task_id. do 3 f_equal; simpl; lia.
Qed.

Lemma update_first_ids (f : Task -> Task) (id : Z) (l : list Task) :
  (forall t, task_id (f t) = task_id t) ->
  task_id <$> update_first f id l = task_id <$> l.
Proof.
  intros Hf. induction l as [|t l IH]; [done|]. cbn [update_first].
  destruct (has_id id t); rewrite !fmap_cons; [by rewrite Hf | by rewrite IH].
Qed.

Lemma apply_update_id (now : string) (ttl desc prio st due : option string) (t : Task) :
  task_id (apply_update now ttl desc prio st due t) = task_id t.
Proof. by rewrite apply_update_fields. Qed.

Lemma remove_first_elem (id : Z) (l : list Task) (x : Task) :
  x ∈ remove_first id l -> x ∈ l.
Proof.
  induction l as [|t l IH]; simpl; [done|].
  destruct (has_id id t).
  - by apply list_elem_of_further.
  - intros [->|H]%elem_of_cons; [apply list_elem_of_here|].
    by apply list_elem_of_further, IH.
Qed.

Lemma remove_first_NoDup (id : Z) (l : list Task) :
  NoDup (task_id <$> l) -> NoDup (task_id <$> remove_first id l).
Proof.
  induction l as [|t l IH]; [done|]. cbn [remove_first]. rewrite fmap_cons.
  intros [Hnotin Hnd]%NoDup_cons. destruct (has_id id t); [done|].
  rewrite fmap_cons. apply NoDup_cons. split; [|by apply IH].
  intros (x & Hx & Hin)%list_elem_of_fmap. apply Hnotin.
  apply list_elem_of_fmap. exists x. split; [done|]. by eapply remove_first_elem.
Qed.

Lemma remove_first_gone (id : Z) (l : list Task) :
  NoDup (task_id <$> l) ->
  Forall (fun t => task_id t <> Some id) (remove_first id l).
Proof.
  induction l as [|t l IH]; [constructor|]. cbn [remove_first]. rewrite fmap_cons.
  intros [Hnotin Hnd]%NoDup_cons. destruct (has_id id t) eqn:E.
  - apply has_id_true in E. rewrite E in Hnotin. apply Forall_forall.
    intros x Hx Hid. apply Hnotin, list_elem_of_fmap. by exists x.
  - apply has_id_false in E. constructor; [done | by apply IH].
Qed.

Lemma Forall_elem_impl {A : Type} (P Q : A -> Prop) (l k : list A) :
  (forall x, x ∈ k -> x ∈ l) -> (forall x, P x -> Q x) -> Forall P l -> Forall Q k.
Proof.
  intros Hsub Himp Hl. apply Forall_forall. intros x Hx.
  rewrite Forall_forall in Hl. auto.
Qed.

Lemma Forall_fmap_id (P : option Z -> Prop) (l k : list Task) :
  task_id <$> k = task_id <$> l ->
  Forall (fun t => P (task_id t)) l -> Forall (fun t => P (task_id t)) k.
Proof.
  intros Heq Hl.
  apply (Forall_fmap task_id P k). rewrite Heq. by apply Forall_fmap.
Qed.

Lemma step_ids_fresh (st : TaskManager * storage) (o : op) :
  ids_fresh st.1 -> ids_fresh (step st o).1.
Proof.
  intros [Hnd Hlt]. destruct o as [now ttl desc prio due|now id ttl desc prio s due|id]; simpl.
  - destruct (add_task now st.1 st.2 ttl desc prio due) as [[[t self'] fs']| |] eqn:E;
      [|done|done].
    apply add_task_inv in E as (Hid & -> & _). split; simpl.
    + rewrite fmap_snoc. apply NoDup_app. split_and!; [done| |apply NoDup_singleton].
      intros x (y & -> & Hy)%list_elem_of_fmap [= Hx]%list_elem_of_singleton.
      rewrite Forall_forall in Hlt. destruct (Hlt y Hy) as (n & Hn & Hlt').
      rewrite Hx, Hid in Hn. injection Hn as <-. lia.
    + apply Forall_app. split.
      * eapply Forall_impl; [exact Hlt|]. intros x (n & Hn & Hlt'). exists n. split; [done|lia].
      * constructor; [|constructor]. exists (next_id st.1). split; [done|lia].
  - unfold update_task. destruct (get_task st.1 id); [|done]. split; simpl.
    + rewrite update_first_ids; [done|]. intros; apply apply_update_id.
    + apply (Forall_fmap_id (fun o => exists n, o = Some n /\ n < next_id st.1) (tasks st.1));
        [|done].
      apply update_first_ids. intros; apply apply_update_id.
  - unfold delete_task. destruct (get_task st.1 id); [|done]. split; simpl.
    + by apply remove_first_NoDup.
    + eapply Forall_elem_impl; [apply remove_first_elem | | exact Hlt]. done.
Qed.

Lemma run_ids_fresh (ops : list op) (st : TaskManager * storage) :
  ids_fresh st.1 -> ids_fresh (run st ops).1.
Proof.
  revert st. induction ops as [|o ops IH]; intros st H; [done|].
  rewrite run_cons. by apply IH, step_ids_fresh.
Qed.

Lemma empty_store_ids_fresh : ids_fresh empty_store.
Proof. split; simpl; constructor. Qed.

Lemma step_retired (id : Z) (st : TaskManager * storage) (o : op) :
  retired id st.1 -> retired id (step st o).1.
Proof.
  intros [Hlt Hno]. destruct o as [now ttl desc prio due|now i ttl desc prio s due|i]; simpl.
  - destruct (add_task now st.1 st.2 ttl desc prio due) as [[[t self'] fs']| |] eqn:E;
      [|done|done].
    apply add_task_inv in E as (Hid & -> & _). split; simpl; [lia|].
    apply Forall_app. split; [done|]. constructor; [|constructor].
    rewrite Hid. intros [= ?]. lia.
  - unfold update_task. destruct (get_task st.1 i); [|done]. split; simpl; [done|].
    apply (Forall_fmap_id (fun o => o <> Some id) (tasks st.1)); [|done].
    apply update_first_ids. intros; apply apply_update_id.
  - unfold delete_task. destruct (get_task st.1 i); [|done]. split; simpl; [done|].
    eapply Forall_elem_impl; [apply remove_first_elem | | exact Hno]. done.
Qed.

Lemma run_retired (id : Z) (ops : list op) (st : TaskManager * storage) :
  retired id st.1 -> retired id (run st ops).1.
Proof.
  revert st. induction ops as [|o ops IH]; intros st H; [done|].
  rewrite run_cons. by apply IH, step_retired.
Qed.

Lemma delete_task_retires (self self' : TaskManager) (fs fs' : storage) (id : Z) :
  ids_fresh self ->
  delete_task self fs id = (true, self', fs') ->
  retired id self'.
Proof.
  intros [Hnd Hlt]. unfold delete_task.
  destruct (get_task self id) as [t|] eqn:E; [|discriminate].
  intros [= <- _]. apply get_task_Some in E as (pre & post & Hsplit & _ & Hid).
  split; simpl; [|by apply remove_first_gone].
  rewrite Forall_forall in Hlt. destruct (Hlt t) as (n & Hn & Hlt').
  { rewrite Hsplit. apply elem_of_app. right. apply list_elem_of_here. }
  rewrite Hid in Hn. injection Hn as <-. done.
Qed.

(** C2: the store over an absent file has [next_id = 1]; every successful
    [add_task] gives the new task the current [next_id], appends it and
    adds exactly one to [next_id]; [N] additions from the empty store leave
    the identifiers [1..N] in insertion order; and once a task has been
    deleted from a store grown from the empty one, its identifier is
    carried by no task after any further operations and is never given to
    a task added later. *)
Theorem add_task_identifiers :
  (forall clock, TaskManager_init clock no_file = Ok empty_store) /\
  next_id empty_store = 1 /\
  (forall now self fs ttl desc prio due,
     strip ttl <> EmptyString ->
     exists t self' fs',
       add_task now self fs ttl desc prio due = Ok (t, self', fs') /\
       task_id t = Some (next_id self) /\
       tasks self' = tasks self ++ [t] /\
       next_id self' = next_id self + 1) /\
  (forall ops,
     Forall valid_add ops ->
     let final := (run (empty_store, no_file) ops).1 in
     task_id <$> tasks final = Some <$> seqZ 1 (Z.of_nat (length ops)) /\
     next_id final = 1 + Z.of_nat (length ops)) /\
  (forall ops1 id self1 fs1 ops2,
     delete_task (run (empty_store, no_file) ops1).1
                 (run (empty_store, no_file) ops1).2 id = (true, self1, fs1) ->
     let st := run (self1, fs1) ops2 in
     get_task st.1 id = None /\
     forall now ttl desc prio due t self' fs',
       add_task now st.1 st.2 ttl desc prio due = Ok (t, self', fs') ->
       task_id t <> Some id).
Proof.
  split_and!.
  - done.
  - done.
  - intros now self fs ttl desc prio due H. eexists _, _, _.
    split; [by apply add_task_ok|]. done.
  - intros ops Hops. destruct (run_valid_adds ops (empty_store, no_file) Hops)
      as (new & Ht & Hids & Hn).
    simpl in *. rewrite Ht. done.
  - intros ops1 id self1 fs1 ops2 Hdel st.
    assert (Hret : retired id st.1).
    { apply (run_retired id ops2 (self1, fs1)).
      eapply delete_task_retires; [|exact Hdel].
      apply (run_ids_fresh ops1 (empty_store, no_file)), empty_store_ids_fresh. }
    destruct Hret as [Hlt Hno]. split; [by apply get_task_None|].
    intros now ttl desc prio due t self' fs' (Hid & _)%add_task_inv.
    rewrite Hid. intros [= ?]. lia.
Qed.

Lemma add_task_identifiers_witness :
  let adds := [Add "t0" "Buy milk" "" HIGH None; Add "t1" " Call dentist " "" MEDIUM None] in
  let st := run (empty_store, no_file) adds in
  let r := delete_task st.1 st.2 1 in
  let st' := run (r.1.2, r.2) [Add "t2" "Water plants" "" LOW None] in
  Forall valid_add adds /\
  task_id <$> tasks st.1 = [Some 1; Some 2] /\
  next_id st.1 = 3 /\
  r.1.1 = true /\
  get_task st'.1 1 = None /\
  task_id <$> tasks st'.1 = [Some 2; Some 3].
Proof.
  intros adds st r st'.
  destruct add_task_identifiers as (_ & _ & _ & Hadds & Hdel).
  assert (Hvalid : Forall valid_add adds).
  { repeat constructor; discriminate. }
  split; [exact Hvalid|].
  destruct (Hadds adds Hvalid) as [Hids Hnext].
  split; [exact Hids|]. split; [exact Hnext|]. split; [reflexivity|].
  split; [|reflexivity].
  refine (proj1 (Hdel adds 1 r.1.2 r.2 [Add "t2" "Water plants" "" LOW None] _)).
  reflexivity.
Defined.

(** ** Listing *)

Lemma list_tasks_In (self : TaskManager) (st prio : option string) (t : Task) :
  In t (list_tasks self st prio) ->
  In t (tasks self) /\
  (opt_truthy st = true -> Some (status t) = st) /\
  (opt_truthy prio = true -> Some (priority t) = prio).
Proof.
  unfold list_tasks.
  destruct st as [[|c s]|], prio as [[|c' s']|]; cbn [str_truthy opt_truthy]; intros H;
    repeat (apply filter_In in H; destruct H as [H ?]);
    (split_and!; [exact H | |]); intros ?; try discriminate; f_equal;
    match goal with
    | E : status_is _ _ = true |- status _ = _ => by apply String.eqb_eq in E
    | E : priority_is _ _ = true |- priority _ = _ => by apply String.eqb_eq in E
    end.
Qed.

(** C10: the filters of [list_tasks] are tested for truth, so an empty
    string filters nothing: it gives the result of leaving that filter
    out, the whole list in order when it is the only filter.  A non-empty
    filter selects exactly the tasks whose field equals it, so it never
    returns a task whose field is the empty string; such a task is only
    ever returned by a call whose filter on that field had no effect, and
    no filter value selects the tasks with an empty field. *)
Theorem list_tasks_empty_filter (self : TaskManager) :
  list_tasks self (Some EmptyString) None = tasks self /\
  list_tasks self None (Some EmptyString) = tasks self /\
  list_tasks self None None = tasks self /\
  (forall prio, list_tasks self (Some EmptyString) prio = list_tasks self None prio) /\
  (forall st, list_tasks self st (Some EmptyString) = list_tasks self st None) /\
  (forall st prio t,
     In t (list_tasks self st prio) -> status t = EmptyString ->
     list_tasks self st prio = list_tasks self None prio) /\
  (forall st prio t,
     In t (list_tasks self st prio) -> priority t = EmptyString ->
     list_tasks self st prio = list_tasks self st None) /\
  (forall v t, v <> EmptyString ->
     (In t (list_tasks self (Some v) None) <-> In t (tasks self) /\ status t = v)) /\
  (forall v t, v <> EmptyString ->
     (In t (list_tasks self None (Some v)) <-> In t (tasks self) /\ priority t = v)) /\
  (forall v prio t, v <> EmptyString -> status t = EmptyString ->
     ~ In t (list_tasks self (Some v) prio)) /\
  (forall st v t, v <> EmptyString -> priority t = EmptyString ->
     ~ In t (list_tasks self st (Some v))).
Proof.
  split_and!; try done.
  - intros [[|c s]|] prio t Hin Hst; try done.
    apply list_tasks_In in Hin as (_ & H & _).
    specialize (H eq_refl). rewrite Hst in H. discriminate.
  - intros st [[|c s]|] t Hin Hp; try done.
    apply list_tasks_In in Hin as (_ & _ & H).
    specialize (H eq_refl). rewrite Hp in H. discriminate.
  - intros [|c s] t Hne; [done|]. unfold list_tasks. cbn [str_truthy].
    rewrite filter_In. unfold status_is. by rewrite String.eqb_eq.
  - intros [|c s] t Hne; [done|]. unfold list_tasks. cbn [str_truthy].
    rewrite filter_In. unfold priority_is. by rewrite String.eqb_eq.
  - intros [|c s] prio t Hne Hst Hin; [done|].
    apply list_tasks_In in Hin as (_ & H & _).
    specialize (H eq_refl). rewrite Hst in H. discriminate.
  - intros st [|c s] t Hne Hp Hin; [done|].
    apply list_tasks_In in Hin as (_ & _ & H).
    specialize (H eq_refl). rewrite Hp in H. discriminate.
Qed.

Lemma list_tasks_empty_filter_witness :
  let blank := set_status sample_task EmptyString in
  let self := {| tasks := [blank; sample_task]; next_id := 3 |} in
  In blank (list_tasks self (Some EmptyString) None) /\
  status blank = EmptyString /\
  list_tasks self (Some EmptyString) None = [blank; sample_task] /\
  CANCELLED <> EmptyString /\
  ~ In blank (list_tasks self (Some CANCELLED) None) /\
  In sample_task (list_tasks self (Some CANCELLED) None).
Proof.
  intros blank self.
  assert (Hin : In blank (list_tasks self (Some EmptyString) None)) by (left; reflexivity).
  assert (Hne : CANCELLED <> EmptyString) by discriminate.
  split; [exact Hin|]. split; [reflexivity|].
  destruct (list_tasks_empty_filter self) as (_ & _ & _ & _ & _ & H & _ & Hexact & _ & Hnever & _).
  split; [exact (H (Some EmptyString) None blank Hin eq_refl)|].
  split; [exact Hne|]. split; [exact (Hnever CANCELLED None blank Hne eq_refl)|].
  apply (Hexact CANCELLED sample_task Hne). split; [right; left; reflexivity | reflexivity].
Defined.

(** ** Serialisation *)

Lemma to_dict_dom (t : Task) :
  dom (to_dict t) =
  ({[ "task_id"; "title"; "description"; "priority"; "status"; "due_date";
      "created_at"; "updated_at" ]} : gset string).
Proof. unfold to_dict. rewrite !dom_insert_L, dom_singleton_L. set_solver. Qed.

Lemma to_dict_lookup (t : Task) :
  to_dict t !! "task_id" = Some (json_of_opt JInt (task_id t)) /\
  to_dict t !! "title" = Some (JStr (title t)) /\
  to_dict t !! "description" = Some (JStr (description t)) /\
  to_dict t !! "priority" = Some (JStr (priority t)) /\
  to_dict t !! "status" = Some (JStr (status t)) /\
  to_dict t !! "due_date" = Some (json_of_opt JStr (due_date t)) /\
  to_dict t !! "created_at" = Some (JStr (created_at t)) /\
  to_dict t !! "updated_at" = Some (JStr (updated_at t)).
Proof. split_and!; reflexivity. Qed.

Lemma to_dict_scalar (t : Task) (k : string) (v : json) :
  to_dict t !! k = Some v -> is_scalar v = true.
Proof.
  intros H. assert (Hk : k ∈ dom (to_dict t)) by (apply elem_of_dom; eauto).
  rewrite to_dict_dom in Hk.
  destruct (to_dict_lookup t) as (H1 & H2 & H3 & H4 & H5 & H6 & H7 & H8).
  rewrite !elem_of_union, !elem_of_singleton in Hk.
  destruct_or!; subst k;
    match goal with
    | Hl : to_dict t !! ?k = _, H : to_dict t !! ?k = Some v |- _ =>
        rewrite Hl in H; injection H as <-
    end; try done.
  - by destruct (task_id t).
  - by destruct (due_date t).
Qed.

(** What [from_dict] makes of a mapping written by [to_dict]. *)
Lemma from_dict_to_dict (now : string) (t : Task) :
  from_dict now (to_dict t) =
  t' ← Task_init now (title t) (description t) (priority t) (status t)
                 (due_date t) (task_id t);
  Ok (set_updated_at (set_created_at t' (created_at t)) (updated_at t)).
Proof.
  destruct (to_dict_lookup t) as (H1 & H2 & H3 & H4 & H5 & H6 & H7 & H8).
  unfold from_dict, dict_get. rewrite H1, H2, H3, H4, H5, H6. simpl.
  destruct (due_date t) as [d|], (task_id t) as [n|]; simpl;
    (destruct (Task_init now (title t) (description t) (priority t) (status t) _ _);
     simpl; [|done|done]);
    unfold dict_get; rewrite H7; simpl; rewrite H8; done.
Qed.

Lemma from_dict_to_dict_storable (now : string) (t : Task) :
  storable t -> from_dict now (to_dict t) = Ok t.
Proof.
  intros (Hne & Ht & Hd). rewrite from_dict_to_dict, Task_init_ok by by rewrite Ht.
  simpl. unfold set_updated_at, set_created_at. simpl. rewrite Ht, Hd. by destruct t.
Qed.

Lemma from_dict_to_dict_blank (now : string) (t : Task) :
  strip (title t) = EmptyString -> from_dict now (to_dict t) = Raise ValueError.
Proof.
  intros H. by rewrite from_dict_to_dict, Task_init_raises.
Qed.

Lemma from_dict_to_dict_cases (now : string) (t : Task) :
  from_dict now (to_dict t) = Raise ValueError \/ exists t', from_dict now (to_dict t) = Ok t'.
Proof.
  rewrite from_dict_to_dict. unfold Task_init.
  destruct (negb _ || negb _); simpl; eauto.
Qed.

Lemma load_all_storable (clock : nat -> string) (l : list Task) (i : nat) :
  Forall storable l ->
  load_all clock i ((fun t => JDict (to_dict t)) <$> l) = Ok l.
Proof.
  intros H. revert i. induction H as [|t l Ht _ IH]; intros i; [done|].
  rewrite fmap_cons. cbn [load_all from_dict_json].
  rewrite (from_dict_to_dict_storable _ _ Ht). simpl. rewrite IH. done.
Qed.

Lemma load_all_blank (clock : nat -> string) (l : list Task) (i : nat) :
  Exists (fun t => strip (title t) = EmptyString) l ->
  load_all clock i ((fun t => JDict (to_dict t)) <$> l) = Raise ValueError.
Proof.
  intros H. revert i. induction l as [|t l IH]; intros i; [by inversion H|].
  rewrite fmap_cons. cbn [load_all from_dict_json].
  destruct (from_dict_to_dict_cases (clock i) t) as [->|[t' Ht']]; [done|].
  rewrite Ht'. simpl.
  inversion H as [? ? Hblank|? ? Hrest]; subst.
  - rewrite (from_dict_to_dict_blank _ _ Hblank) in Ht'. discriminate.
  - by rewrite (IH Hrest).
Qed.

Lemma init_after_save (clock : nat -> string) (self : TaskManager) (fs : storage) :
  TaskManager_init clock (_save_tasks self fs) =
  loaded ← load_all clock 0 ((fun t => JDict (to_dict t)) <$> tasks self);
  Ok {| tasks := loaded; next_id := next_id self |}.
Proof. reflexivity. Qed.

(** ** What the store operations keep trimmed *)

Lemma Task_init_trimmed (now ttl desc prio st : string) (due : option string)
    (id : option Z) (t : Task) :
  Task_init now ttl desc prio st due id = Ok t -> trimmed t.
Proof.
  unfold Task_init. destruct (negb _ || negb _); [discriminate|].
  intros [= <-]. split; simpl; apply strip_idem.
Qed.

Lemma apply_update_trimmed (now : string) (ttl desc prio st due : option string) (t : Task) :
  trimmed t -> trimmed (apply_update now ttl desc prio st due t).
Proof.
  intros [Ht Hd]. rewrite apply_update_fields. split; simpl.
  - destruct ttl; [apply strip_idem | done].
  - destruct desc; [apply strip_idem | done].
Qed.

Lemma update_first_Forall (P : Task -> Prop) (f : Task -> Task) (id : Z) (l : list Task) :
  (forall t, P t -> P (f t)) -> Forall P l -> Forall P (update_first f id l).
Proof.
  intros Hf H. induction H as [|t l Ht Hl IH]; simpl; [constructor|].
  destruct (has_id id t); constructor; auto.
Qed.

Lemma step_trimmed (st : TaskManager * storage) (o : op) :
  Forall trimmed (tasks st.1) -> Forall trimmed (tasks (step st o).1).
Proof.
  intros H. destruct o as [now ttl desc prio due|now id ttl desc prio s due|id]; simpl.
  - destruct (add_task now st.1 st.2 ttl desc prio due) as [[[t self'] fs']| |] eqn:E;
      [|done|done].
    unfold add_task in E.
    destruct (Task_init now ttl desc prio TODO due (Some (next_id st.1))) as [t0| |] eqn:Et;
      simpl in E; [|discriminate|discriminate].
    injection E as <- <- <-. simpl. apply Forall_app. split; [done|].
    constructor; [|constructor]. by eapply Task_init_trimmed.
  - unfold update_task. destruct (get_task st.1 id); [|done]. simpl.
    apply update_first_Forall; [|done]. intros x. apply apply_update_trimmed.
  - unfold delete_task. destruct (get_task st.1 id); [|done]. simpl.
    eapply Forall_elem_impl; [apply remove_first_elem | | exact H]. done.
Qed.

Lemma run_trimmed (ops : list op) (st : TaskManager * storage) :
  Forall trimmed (tasks st.1) -> Forall trimmed (tasks (run st ops).1).
Proof.
  revert st. induction ops as [|o ops IH]; intros st H; [done|].
  rewrite run_cons. by apply IH, step_trimmed.
Qed.

(** C3, as the code has it: saving a store and loading the file gives back
    the same tasks, field for field and in order, and the same [next_id],
    provided every title is non-empty and titles and descriptions are
    already trimmed; this covers every store grown from the empty one in
    which no title has been blanked.  A store holding a task whose title
    is empty once trimmed cannot be loaded back: the constructor's check
    raises [ValueError]. *)
Theorem save_load_roundtrip (clock : nat -> string) (fs : storage) :
  (forall self,
     Forall storable (tasks self) ->
     TaskManager_init clock (_save_tasks self fs) = Ok self) /\
  (forall ops,
     let self := (run (empty_store, no_file) ops).1 in
     Forall (fun t => title t <> EmptyString) (tasks self) ->
     TaskManager_init clock (_save_tasks self fs) = Ok self) /\
  (forall self,
     Exists (fun t => strip (title t) = EmptyString) (tasks self) ->
     TaskManager_init clock (_save_tasks self fs) = Raise ValueError).
Proof.
  assert (Hgen : forall self, Forall storable (tasks self) ->
                   TaskManager_init clock (_save_tasks self fs) = Ok self).
  { intros self H. rewrite init_after_save, (load_all_storable _ _ _ H). by destruct self. }
  split_and!.
  - exact Hgen.
  - intros ops self Hne. apply Hgen.
    pose proof (run_trimmed ops (empty_store, no_file) (List.Forall_nil _)) as Htr.
    fold self in Htr. rewrite Forall_forall in Hne, Htr. apply Forall_forall.
    intros t Ht. destruct (Htr t Ht). split_and!; auto.
  - intros self H. by rewrite init_after_save, (load_all_blank _ _ _ H).
Qed.

Lemma save_load_roundtrip_witness :
  let clock := fun _ : nat => "2025-01-01T12:00:00" in
  let ops := [Add "t0" "  Buy milk " "" HIGH None;
              Add "t1" "Call dentist" " soon " MEDIUM (Some "2020-01-01T00:00:00");
              Update "t2" 1 None None None (Some COMPLETED) None] in
  let self := (run (empty_store, no_file) ops).1 in
  Forall storable (tasks sample_store) /\
  TaskManager_init clock (_save_tasks sample_store no_file) = Ok sample_store /\
  Forall (fun t => title t <> EmptyString) (tasks self) /\
  TaskManager_init clock (_save_tasks self no_file) = Ok self.
Proof.
  intros clock ops self.
  destruct (save_load_roundtrip clock no_file) as (Hgen & Hrun & _).
  assert (Hst : Forall storable (tasks sample_store)).
  { repeat constructor; discriminate. }
  assert (Hne : Forall (fun t => title t <> EmptyString) (tasks self)).
  { repeat constructor; discriminate. }
  split; [exact Hst|]. split; [exact (Hgen sample_store Hst)|].
  split; [exact Hne|]. exact (Hrun ops Hne).
Defined.

(** C3 as stated fails: after a task's title has been blanked through
    [update_task], the file the store has just written cannot be loaded. *)
Lemma save_load_blank_title_fails :
  let clock := fun _ : nat => "2025-01-01T12:00:00" in
  let ops := [Add "t0" "Buy milk" "" MEDIUM None;
              Update "t1" 1 (Some "   ") None None None None] in
  let st := run (empty_store, no_file) ops in
  title <$> tasks st.1 = [EmptyString] /\
  TaskManager_init clock (_save_tasks st.1 st.2) = Raise ValueError /\
  TaskManager_init clock (_save_tasks st.1 st.2) <> Ok st.1.
Proof.
  intros clock ops st.
  assert (H : TaskManager_init clock (_save_tasks st.1 st.2) = Raise ValueError)
    by reflexivity.
  split; [reflexivity|]. split; [exact H|]. rewrite H. discriminate.
Qed.

(** ** Deserialisation defaults *)

Lemma typed_as_str (data : gmap string json) (key dflt : string) :
  key_ok is_str data key = true ->
  typed (as_str (dict_get data key (JStr dflt))) = Ok (str_field data key dflt).
Proof.
  unfold key_ok, dict_get, str_field.
  destruct (data !! key) as [[]|]; simpl; done.
Qed.

Lemma typed_as_opt_str (data : gmap string json) (key : string) :
  key_ok is_opt_str data key = true ->
  typed (as_opt_str (dict_get data key JNull)) = Ok (opt_str_field data key).
Proof.
  unfold key_ok, dict_get, opt_str_field.
  destruct (data !! key) as [[]|]; simpl; done.
Qed.

Lemma typed_as_opt_int (data : gmap string json) (key : string) :
  key_ok is_opt_int data key = true ->
  typed (as_opt_int (dict_get data key JNull)) = Ok (opt_int_field data key).
Proof.
  unfold key_ok, dict_get, opt_int_field.
  destruct (data !! key) as [[]|]; simpl; done.
Qed.

Lemma from_dict_typed (now : string) (data : gmap string json) (ttl : string) :
  data !! "title" = Some (JStr ttl) ->
  strip ttl <> EmptyString ->
  optional_keys_typed data = true ->
  from_dict now data =
  Ok {| title := strip ttl;
        description := strip (str_field data "description" EmptyString);
        priority := str_field data "priority" MEDIUM;
        status := str_field data "status" TODO;
        due_date := opt_str_field data "due_date";
        task_id := opt_int_field data "task_id";
        created_at := str_field data "created_at" now;
        updated_at := str_field data "updated_at" now |}.
Proof.
  intros Httl Hne Hty. unfold optional_keys_typed in Hty.
  repeat (apply andb_true_iff in Hty as [Hty ?]).
  unfold from_dict. rewrite Httl.
  rewrite !typed_as_str, typed_as_opt_str, typed_as_opt_int by done.
  cbn [typed as_str mbind result_bind]. rewrite Task_init_ok by done.
  cbn [mbind result_bind created_at updated_at set_created_at].
  rewrite !typed_as_str by done. done.
Qed.

(** C8, as the code has it: [to_dict] gives a flat mapping whose keys are
    exactly [task_id], [title], [description], [priority], [status],
    [due_date], [created_at] and [updated_at] (the identifier is stored
    under [task_id], not [id]); [from_dict] of a mapping with a valid title
    fills every missing optional key with the constructor's default, and
    takes [created_at] and [updated_at] from the mapping when they are
    there, from the constructor otherwise. *)
Theorem to_dict_from_dict_spec :
  (forall t,
     dom (to_dict t) =
       ({[ "task_id"; "title"; "description"; "priority"; "status"; "due_date";
           "created_at"; "updated_at" ]} : gset string) /\
     (forall k v, to_dict t !! k = Some v -> is_scalar v = true)) /\
  (forall now data ttl,
     data !! "title" = Some (JStr ttl) ->
     strip ttl <> EmptyString ->
     optional_keys_typed data = true ->
     from_dict now data =
     Ok {| title := strip ttl;
           description := strip (str_field data "description" EmptyString);
           priority := str_field data "priority" MEDIUM;
           status := str_field data "status" TODO;
           due_date := opt_str_field data "due_date";
           task_id := opt_int_field data "task_id";
           created_at := str_field data "created_at" now;
           updated_at := str_field data "updated_at" now |}).
Proof.
  split.
  - intros t. split; [apply to_dict_dom | apply to_dict_scalar].
  - apply from_dict_typed.
Qed.

Lemma to_dict_from_dict_spec_witness :
  let data : gmap string json :=
    {[ "title" := JStr " From Dict Task "; "created_at" := JStr "2025-01-01T12:00:00" ]} in
  data !! "title" = Some (JStr " From Dict Task ") /\
  strip " From Dict Task " <> EmptyString /\
  optional_keys_typed data = true /\
  from_dict "2025-06-01T00:00:00" data =
  Ok {| title := "From Dict Task"; description := ""; priority := MEDIUM;
        status := TODO; due_date := None; task_id := None;
        created_at := "2025-01-01T12:00:00"; updated_at := "2025-06-01T00:00:00" |}.
Proof.
  intros data. destruct to_dict_from_dict_spec as [_ H].
  split; [reflexivity|]. split; [discriminate|]. split; [reflexivity|].
  refine (H "2025-06-01T00:00:00" data " From Dict Task " eq_refl _ eq_refl).
  discriminate.
Defined.

(** C8 as stated fails on the key the identifier is stored under: the
    mapping has no key [id]. *)
Lemma to_dict_has_no_id_key :
  to_dict sample_task !! "id" = None /\
  to_dict sample_task !! "task_id" = Some (JInt 1) /\
  dom (to_dict sample_task) <>
    ({[ "id"; "title"; "description"; "priority"; "status"; "due_date";
        "created_at"; "updated_at" ]} : gset string).
Proof.
  split; [reflexivity|]. split; [reflexivity|].
  intros H. assert (Hin : "id" ∈ dom (to_dict sample_task)) by (rewrite H; set_solver).
  apply elem_of_dom in Hin as [v Hv]. discriminate Hv.
Qed.

(** * Further properties of the code *)

(** ** [from_dict] *)

Lemma typed_not_Raise {A : Type} (o : option A) (e : exn) : typed o <> Raise e.
Proof. by destruct o. Qed.

Lemma from_dict_no_title (now : string) (data : gmap string json) :
  data !! "title" = None -> from_dict now data = Raise KeyError.
Proof. unfold from_dict. by intros ->. Qed.

(** X1: [from_dict] raises [KeyError] exactly when the mapping has no
    ["title"] key, whatever else it holds. *)
Theorem from_dict_KeyError_iff (now : string) (data : gmap string json) :
  from_dict now data = Raise KeyError <-> data !! "title" = None.
Proof.
  unfold from_dict. split.
  - destruct (data !! "title") as [v|]; [|done]. intros H. exfalso. revert H.
    repeat match goal with
           | |- mbind _ (typed ?o) = _ -> _ => destruct o; cbn [mbind result_bind typed]; try done
           end.
    unfold Task_init. destruct (negb _ || negb _); cbn [mbind result_bind]; [done|].
    repeat match goal with
           | |- mbind _ (typed ?o) = _ -> _ => destruct o; cbn [mbind result_bind typed]; try done
           end.
  - intros H. fold (from_dict now data). by apply from_dict_no_title.
Qed.

Lemma from_dict_Ok_inv (now : string) (data : gmap string json) (t : Task) :
  from_dict now data = Ok t ->
  exists ttl desc, data !! "title" = Some (JStr ttl) /\
                   strip ttl <> EmptyString /\
                   title t = strip ttl /\ description t = strip desc.
Proof.
  unfold from_dict. destruct (data !! "title") as [v|]; [|done].
  destruct v as [| | |ttl| |]; simpl; try done.
  destruct (typed (as_str (dict_get data "description" (JStr "")))) as [desc| |];
    simpl; [|done|done].
  repeat match goal with
         | |- context [mbind _ (typed ?o)] => destruct (typed o); simpl; try done
         end.
  destruct (Task_init now ttl desc _ _ _ _) as [t0| |] eqn:E; simpl; [|done|done].
  unfold Task_init in E. destruct (negb _ || negb _) eqn:Hc; [done|].
  injection E as <-. simpl.
  repeat match goal with
         | |- context [mbind _ (typed ?o)] => destruct (typed o); simpl; try done
         end.
  intros [= <-]. exists ttl, desc. simpl. split_and!; try done.
  intros Hs. apply title_check in Hs. congruence.
Qed.

Lemma from_dict_Ok_storable (now : string) (data : gmap string json) (t : Task) :
  from_dict now data = Ok t -> storable t.
Proof.
  intros (ttl & desc & _ & Hne & Ht & Hd)%from_dict_Ok_inv.
  unfold storable. rewrite Ht, Hd, !strip_idem. done.
Qed.

(** X2: a task returned by [from_dict] has a non-empty title and nothing
    left to trim, and serialising it and reading it back, at any time,
    returns it unchanged. *)
Theorem from_dict_result_stable (now : string) (data : gmap string json) (t : Task) :
  from_dict now data = Ok t ->
  title t <> EmptyString /\ strip (title t) = title t /\
  strip (description t) = description t /\
  forall now', from_dict now' (to_dict t) = Ok t.
Proof.
  intros H. pose proof (from_dict_Ok_storable _ _ _ H) as Hs.
  destruct Hs as (H1 & H2 & H3). split_and!; try done.
  intros now'. by apply from_dict_to_dict_storable.
Qed.

Lemma from_dict_result_stable_witness :
  let data : gmap string json :=
    {[ "title" := JStr "  Water plants "; "description" := JStr " balcony ";
       "task_id" := JInt 7 ]} in
  let t := {| title := "Water plants"; description := "balcony"; priority := MEDIUM;
              status := TODO; due_date := None; task_id := Some 7;
              created_at := "2025-03-01T10:00:00"; updated_at := "2025-03-01T10:00:00" |} in
  from_dict "2025-03-01T10:00:00" data = Ok t /\
  from_dict "2030-01-01T00:00:00" (to_dict t) = Ok t.
Proof.
  intros data t.
  assert (H : from_dict "2025-03-01T10:00:00" data = Ok t) by reflexivity.
  split; [exact H|].
  destruct (from_dict_result_stable _ _ _ H) as (_ & _ & _ & Hrt).
  exact (Hrt "2030-01-01T00:00:00").
Defined.

(** ** [is_overdue] over time *)

(** X3: a task that is overdue stays overdue at every later reading of
    the clock, as long as the task itself is left alone and the parser
    reads its due date then as it did before (as it does for a due date
    that spells out its date and time, where nothing is filled in from
    the current day). *)
Theorem is_overdue_monotone (parse : Z -> string -> parsed) (today clock today' clock' : Z)
    (t : Task) (s : string) :
  due_date t = Some s ->
  parse today' s = parse today s ->
  is_overdue parse today clock t = Ok true -> clock <= clock' ->
  is_overdue parse today' clock' t = Ok true.
Proof.
  intros Hd Hsame Hov Hle. apply is_overdue_true_iff.
  apply is_overdue_true_iff in Hov as (s0 & due & Hd0 & Hne & Hp & Hlt & Hst).
  rewrite Hd in Hd0. injection Hd0 as <-.
  exists s, due. split_and!; try done; [by rewrite Hsame|].
  apply dt_lt_now_true in Hlt as [Htz Hw]. apply dt_lt_now_true. split; [done|lia].
Qed.

Lemma is_overdue_monotone_witness :
  due_date sample_task = Some "2020-01-01T00:00:00" /\
  parse_sample 1700000000000000 "2020-01-01T00:00:00" =
    parse_sample 1600000000000000 "2020-01-01T00:00:00" /\
  is_overdue parse_sample 1600000000000000 1600000000000000 sample_task = Ok true /\
  1600000000000000 <= 1700000000000000 /\
  is_overdue parse_sample 1700000000000000 1700000000000000 sample_task = Ok true.
Proof.
  assert (H : is_overdue parse_sample 1600000000000000 1600000000000000 sample_task = Ok true)
    by reflexivity.
  assert (Hle : 1600000000000000 <= 1700000000000000) by lia.
  split; [reflexivity|]. split; [reflexivity|]. split; [exact H|]. split; [exact Hle|].
  exact (is_overdue_monotone parse_sample 1600000000000000 1600000000000000
           1700000000000000 1700000000000000 sample_task "2020-01-01T00:00:00"
           eq_refl eq_refl H Hle).
Defined.

(** X4: a due date that parses to a value carrying a UTC offset is never
    reported overdue: comparing it with the naive [datetime.now()] raises
    [TypeError], which the [except] clause turns into [False]. *)
Theorem is_overdue_aware_false (parse : Z -> string -> parsed) (today clock : Z) (t : Task)
    (s : string) (due : datetime) (off : Z) :
  due_date t = Some s -> parse today s = Parsed due -> utcoffset due = Some off ->
  is_overdue parse today clock t = Ok false.
Proof.
  intros Hd Hp Htz. unfold is_overdue. rewrite Hd, Hp.
  destruct (negb (str_truthy s)); [done|].
  unfold dt_lt, datetime_now. simpl. by rewrite Htz.
Qed.

Lemma is_overdue_aware_false_witness :
  let t := set_due_date sample_task (Some "2020-01-01T00:00:00+00:00") in
  due_date t = Some "2020-01-01T00:00:00+00:00" /\
  parse_sample 1700000000000000 "2020-01-01T00:00:00+00:00" =
    Parsed {| wall := 1577836800000000; utcoffset := Some 0 |} /\
  is_overdue parse_sample 1700000000000000 1700000000000000 t = Ok false.
Proof.
  intros t. split; [reflexivity|]. split; [reflexivity|].
  exact (is_overdue_aware_false parse_sample 1700000000000000 1700000000000000 t
           "2020-01-01T00:00:00+00:00"
           {| wall := 1577836800000000; utcoffset := Some 0 |} 0
           eq_refl eq_refl eq_refl).
Defined.

(** ** [get_overdue_tasks] *)

Lemma is_overdue_Raise (parse : Z -> string -> parsed) (today clock : Z) (t : Task) (e : exn) :
  is_overdue parse today clock t = Raise e <->
  e = OverflowError /\
  exists s, due_date t = Some s /\ s <> EmptyString /\ parse today s = ParseOverflow.
Proof.
  unfold is_overdue. split.
  - destruct (due_date t) as [s|]; [|done].
    destruct s as [|c s']; simpl; [done|].
    destruct (parse today (String c s')) as [due| |] eqn:Hp; try done.
    + by destruct (dt_lt due (datetime_now clock)).
    + intros [= <-]. split; [done|]. by exists (String c s').
  - intros [-> (s & -> & Hne & Hp)]. destruct s as [|c s']; [done|]. simpl. by rewrite Hp.
Qed.

Lemma is_overdue_not_Untyped (parse : Z -> string -> parsed) (today clock : Z) (t : Task) :
  is_overdue parse today clock t <> Untyped.
Proof.
  unfold is_overdue. destruct (due_date t) as [s|]; [|done].
  destruct (negb (str_truthy s)); [done|].
  destruct (parse today s) as [due| |]; try done.
  by destruct (dt_lt due (datetime_now clock)).
Qed.

Lemma overdue_from_Ok (parse : Z -> string -> parsed) (clock : nat -> Z * Z)
    (l : list Task) (i : nat) (res : list Task) :
  overdue_from parse clock i l = Ok res ->
  res `sublist_of` l /\
  Forall (fun t => exists today c, is_overdue parse today c t = Ok true) res.
Proof.
  revert i res. induction l as [|t l IH]; intros i res; simpl.
  - intros [= <-]. split; constructor.
  - destruct (is_overdue parse (clock i).1 (clock i).2 t) as [b| |] eqn:E;
      simpl; [|done|done].
    destruct (overdue_from parse clock (S i) l) as [rest| |] eqn:Er; simpl; [|done|done].
    intros [= <-]. destruct (IH _ _ Er) as [Hsub Hall]. destruct b; split.
    + by apply sublist_skip.
    + constructor; [|done]. by exists (clock i).1, (clock i).2.
    + by apply sublist_cons.
    + done.
Qed.

Lemma overdue_from_total (parse : Z -> string -> parsed) (clock : nat -> Z * Z)
    (l : list Task) (i : nat) :
  (forall k t s, l !! k = Some t -> due_date t = Some s ->
                 parse (clock (i + k)%nat).1 s <> ParseOverflow) ->
  exists res, overdue_from parse clock i l = Ok res.
Proof.
  revert i. induction l as [|t l IH]; intros i H; simpl; [by eexists|].
  destruct (is_overdue parse (clock i).1 (clock i).2 t) as [b| |] eqn:E; simpl.
  - destruct (IH (S i)) as [rest Hrest].
    { intros k t' s Hk Hd. replace (S i + k)%nat with (i + S k)%nat by lia.
      by apply (H (S k) t' s). }
    rewrite Hrest. simpl. by eexists.
  - apply is_overdue_Raise in E as [_ (s & Hd & _ & Hp)].
    destruct (H 0%nat t s eq_refl Hd). by rewrite Nat.add_0_r.
  - by apply is_overdue_not_Untyped in E.
Qed.

Lemma overdue_from_overflow (parse : Z -> string -> parsed) (clock : nat -> Z * Z)
    (l : list Task) (i k : nat) (t : Task) (s : string) :
  l !! k = Some t -> due_date t = Some s -> s <> EmptyString ->
  parse (clock (i + k)%nat).1 s = ParseOverflow ->
  overdue_from parse clock i l = Raise OverflowError.
Proof.
  revert i k. induction l as [|x l IH]; intros i k Hk Hd Hne Hp; [done|]. simpl.
  destruct (is_overdue parse (clock i).1 (clock i).2 x) as [b|e|] eqn:E; simpl.
  - destruct k as [|k]; simpl in Hk.
    + injection Hk as ->. rewrite Nat.add_0_r in Hp.
      assert (Hr : is_overdue parse (clock i).1 (clock i).2 t = Raise OverflowError).
      { apply is_overdue_Raise. split; [done|]. by exists s. }
      congruence.
    + rewrite (IH (S i) k Hk Hd Hne); [done|].
      by replace (S i + k)%nat with (i + S k)%nat by lia.
  - by apply is_overdue_Raise in E as [-> _].
  - by apply is_overdue_not_Untyped in E.
Qed.

Lemma overdue_from_const (parse : Z -> string -> parsed) (today c : Z) (l : list Task)
    (i : nat) (res : list Task) :
  overdue_from parse (fun _ => (today, c)) i l = Ok res ->
  res = List.filter (fun t => says_overdue (is_overdue parse today c t)) l.
Proof.
  revert i res. induction l as [|t l IH]; intros i res; simpl.
  - by intros [= <-].
  - destruct (is_overdue parse today c t) as [b| |]; simpl; [|done|done].
    destruct (overdue_from parse (fun _ => (today, c)) (S i) l) as [rest| |] eqn:Er;
      simpl; [|done|done].
    intros [= <-]. rewrite <- (IH _ _ Er). by destruct b.
Qed.

(** X5: when [get_overdue_tasks] returns, it returns tasks of the store
    in their stored order, none of them completed and each with a
    non-empty due date that the parser reads, and when every check sees
    the same clock readings exactly the tasks for which [is_overdue]
    holds.  It returns whenever the parser overflows on no stored due
    date; a stored due date on which the parser overflows, even of a
    completed task, makes it raise [OverflowError]. *)
Theorem get_overdue_tasks_spec (parse : Z -> string -> parsed) (self : TaskManager) :
  (forall clock res,
     get_overdue_tasks parse clock self = Ok res ->
     res `sublist_of` tasks self /\
     Forall (fun t => status t <> COMPLETED /\
                      exists s today due, due_date t = Some s /\ s <> EmptyString /\
                                          parse today s = Parsed due) res) /\
  (forall today c res,
     get_overdue_tasks parse (fun _ => (today, c)) self = Ok res ->
     res = List.filter (fun t => says_overdue (is_overdue parse today c t)) (tasks self)) /\
  (forall clock,
     (forall k t s, tasks self !! k = Some t -> due_date t = Some s ->
                    parse (clock k).1 s <> ParseOverflow) ->
     exists res, get_overdue_tasks parse clock self = Ok res) /\
  (forall clock k t s,
     tasks self !! k = Some t -> due_date t = Some s -> s <> EmptyString ->
     parse (clock k).1 s = ParseOverflow ->
     get_overdue_tasks parse clock self = Raise OverflowError).
Proof.
  split_and!.
  - intros clock res [Hsub Hall]%overdue_from_Ok. split; [done|].
    eapply Forall_impl; [exact Hall|]. simpl.
    intros t (today & c & (s & due & Hd & Hne & Hp & _ & Hst)%is_overdue_true_iff).
    split; [done|]. by exists s, today, due.
  - intros today c res. apply overdue_from_const.
  - intros clock H. apply overdue_from_total. exact H.
  - intros clock k t s Hk Hd Hne Hp. by eapply (overdue_from_overflow _ _ _ 0 k).
Qed.

Lemma get_overdue_tasks_spec_witness :
  let clock := fun _ : nat => (1700000000000000, 1700000000000000) in
  let finished := set_status sample_task COMPLETED in
  let self := {| tasks := [sample_task; finished]; next_id := 3 |} in
  let huge := set_due_date finished (Some "99999999999999999999999999") in
  let self' := {| tasks := [sample_task; huge]; next_id := 3 |} in
  (forall k t s, tasks self !! k = Some t -> due_date t = Some s ->
                 parse_sample (clock k).1 s <> ParseOverflow) /\
  get_overdue_tasks parse_sample clock self = Ok [sample_task] /\
  tasks self' !! 1%nat = Some huge /\
  get_overdue_tasks parse_sample clock self' = Raise OverflowError.
Proof.
  intros clock finished self huge self'.
  destruct (get_overdue_tasks_spec parse_sample self) as (_ & Hconst & Htotal & _).
  destruct (get_overdue_tasks_spec parse_sample self') as (_ & _ & _ & Hraise).
  assert (Hno : forall k t s, tasks self !! k = Some t -> due_date t = Some s ->
                              parse_sample (clock k).1 s <> ParseOverflow).
  { intros [|[|k]] t s Hk Hd; simpl in Hk; try discriminate Hk;
      injection Hk as <-; injection Hd as <-; discriminate. }
  split; [exact Hno|]. split.
  - destruct (Htotal clock Hno) as [res Hres]. rewrite Hres. f_equal.
    exact (Hconst 1700000000000000 1700000000000000 res Hres).
  - split; [reflexivity|].
    apply (Hraise clock 1%nat huge "99999999999999999999999999");
      [reflexivity | reflexivity | discriminate | reflexivity].
Defined.

(** ** Adding and looking up *)

Lemma find_app_absent (id : Z) (pre post : list Task) :
  Forall (fun x => task_id x <> Some id) pre ->
  List.find (has_id id) (pre ++ post) = List.find (has_id id) post.
Proof.
  intros H. induction H as [|x pre Hx _ IH]; simpl; [done|].
  apply has_id_false in Hx. by rewrite Hx.
Qed.

Lemma find_app_present (id : Z) (l post : list Task) (t : Task) :
  List.find (has_id id) l = Some t ->
  List.find (has_id id) (l ++ post) = Some t.
Proof.
  induction l as [|x l IH]; simpl; [done|].
  destruct (has_id id x); [done | exact IH].
Qed.

(** X6: after a successful [add_task] on a store in which no task
    already carries [next_id], the new task is the one [get_task] finds
    under that identifier, and every other lookup gives what it gave
    before. *)
Theorem add_task_then_get (now : string) (self self' : TaskManager) (fs fs' : storage)
    (ttl desc prio : string) (due : option string) (t : Task) :
  Forall (fun x => task_id x <> Some (next_id self)) (tasks self) ->
  add_task now self fs ttl desc prio due = Ok (t, self', fs') ->
  get_task self' (next_id self) = Some t /\
  forall id, id <> next_id self -> get_task self' id = get_task self id.
Proof.
  intros Hfresh (Hid & -> & _)%add_task_inv. unfold get_task. simpl. split.
  - rewrite (find_app_absent _ _ _ Hfresh). simpl.
    apply has_id_true in Hid. by rewrite Hid.
  - intros id Hne. destruct (List.find (has_id id) (tasks self)) as [x|] eqn:E.
    + by apply find_app_present.
    + rewrite find_app_absent.
      * simpl. assert (Hno : has_id id t = false).
        { apply has_id_false. rewrite Hid. congruence. }
        by rewrite Hno.
      * by apply (get_task_None self id).
Qed.

Lemma add_task_then_get_witness :
  let r := add_task "2025-01-02T08:00:00" sample_store no_file " Call dentist " "" LOW None in
  let t := {| title := "Call dentist"; description := ""; priority := LOW; status := TODO;
              due_date := None; task_id := Some 2;
              created_at := "2025-01-02T08:00:00"; updated_at := "2025-01-02T08:00:00" |} in
  let self' := {| tasks := [sample_task; t]; next_id := 3 |} in
  Forall (fun x => task_id x <> Some (next_id sample_store)) (tasks sample_store) /\
  r = Ok (t, self', _save_tasks self' no_file) /\
  get_task self' 2 = Some t /\
  get_task self' 1 = Some sample_task.
Proof.
  intros r t self'.
  assert (Hfresh : Forall (fun x => task_id x <> Some (next_id sample_store))
                          (tasks sample_store)).
  { repeat constructor. discriminate. }
  assert (Hr : r = Ok (t, self', _save_tasks self' no_file)) by reflexivity.
  destruct (add_task_then_get _ _ _ _ _ _ _ _ _ _ Hfresh Hr) as [Hnew Hold].
  split; [exact Hfresh|]. split; [exact Hr|]. split; [exact Hnew|].
  rewrite (Hold 1); [reflexivity | discriminate].
Defined.

(** ** Deleting *)

Lemma delete_task_absent_helper (self : TaskManager) (fs : storage) (id : Z) :
  Forall (fun t => task_id t <> Some id) (tasks self) ->
  delete_task self fs id = (false, self, fs).
Proof.
  intros H. apply get_task_None in H. unfold delete_task. by rewrite H.
Qed.

(** X8: deleting an identifier that no task carries returns [False] and
    changes nothing: tasks, [next_id], the file and its write count stay
    as they were. *)
Theorem delete_task_absent (self : TaskManager) (fs : storage) (id : Z) :
  Forall (fun t => task_id t <> Some id) (tasks self) ->
  delete_task self fs id = (false, self, fs).
Proof. apply delete_task_absent_helper. Qed.

Lemma delete_task_absent_witness :
  Forall (fun t => task_id t <> Some 999) (tasks sample_store) /\
  delete_task sample_store no_file 999 = (false, sample_store, no_file).
Proof.
  assert (H : Forall (fun t => task_id t <> Some 999) (tasks sample_store)).
  { repeat constructor. discriminate. }
  split; [exact H|]. exact (delete_task_absent sample_store no_file 999 H).
Defined.

(** X9: deleting an identifier that some task carries returns [True],
    removes the first task carrying it and nothing else, keeps the order
    of the others and [next_id], and saves the result. *)
Theorem delete_task_present (self : TaskManager) (fs : storage) (id : Z) :
  (exists t, In t (tasks self) /\ task_id t = Some id) ->
  exists pre t post,
    tasks self = pre ++ t :: post /\
    Forall (fun x => task_id x <> Some id) pre /\
    task_id t = Some id /\
    let self' := {| tasks := pre ++ post; next_id := next_id self |} in
    delete_task self fs id = (true, self', _save_tasks self' fs) /\
    S (length (tasks self')) = length (tasks self).
Proof.
  intros [t Hget]%get_task_is_Some.
  destruct (proj1 (get_task_Some self id t) Hget) as (pre & post & Hsplit & Hpre & Hid).
  exists pre, t, post. split_and!; try done. simpl. split.
  - unfold delete_task. rewrite Hget, Hsplit, (remove_first_split _ _ _ _ Hpre Hid). done.
  - rewrite Hsplit, !length_app. simpl. lia.
Qed.

Lemma delete_task_present_witness :
  (exists t, In t (tasks sample_store) /\ task_id t = Some 1) /\
  delete_task sample_store no_file 1 =
    (true, {| tasks := []; next_id := 2 |},
     _save_tasks {| tasks := []; next_id := 2 |} no_file).
Proof.
  assert (H : exists t, In t (tasks sample_store) /\ task_id t = Some 1).
  { exists sample_task. split; [left; reflexivity | reflexivity]. }
  split; [exact H|].
  destruct (delete_task_present sample_store no_file 1 H)
    as (pre & t & post & Hsplit & _ & _ & Hdel & _).
  destruct pre as [|x pre]; simpl in Hsplit.
  - injection Hsplit as <- <-. exact Hdel.
  - injection Hsplit as _ Hnil. destruct pre; discriminate.
Defined.

Lemma find_remove_first_other (id j : Z) (l : list Task) :
  j <> id ->
  List.find (has_id j) (remove_first id l) = List.find (has_id j) l.
Proof.
  intros Hne. induction l as [|t l IH]; simpl; [done|].
  destruct (has_id id t) eqn:E.
  - apply has_id_true in E. assert (Hno : has_id j t = false).
    { apply has_id_false. rewrite E. congruence. }
    by rewrite Hno.
  - simpl. by rewrite IH.
Qed.

(** X10: when the identifiers in the store are pairwise distinct, a
    deleted identifier is no longer found, and looking up any other
    identifier gives what it gave before the deletion. *)
Theorem delete_task_then_get (self self' : TaskManager) (fs fs' : storage) (id : Z) :
  NoDup (task_id <$> tasks self) ->
  delete_task self fs id = (true, self', fs') ->
  get_task self' id = None /\
  forall j, j <> id -> get_task self' j = get_task self j.
Proof.
  intros Hnd. unfold delete_task.
  destruct (get_task self id) as [t|]; [|discriminate].
  intros [= <- _]. split.
  - apply get_task_None. simpl. by apply remove_first_gone.
  - intros j Hne. unfold get_task. simpl. by apply find_remove_first_other.
Qed.

Lemma delete_task_then_get_witness :
  let r := delete_task sample_store no_file 1 in
  NoDup (task_id <$> tasks sample_store) /\
  r.1.1 = true /\
  get_task r.1.2 1 = None.
Proof.
  intros r.
  assert (Hnd : NoDup (task_id <$> tasks sample_store)).
  { apply NoDup_singleton. }
  split; [exact Hnd|]. split; [reflexivity|].
  exact (proj1 (delete_task_then_get sample_store r.1.2 no_file r.2 1 Hnd eq_refl)).
Defined.

(** ** Invariants of a store grown from the empty one *)

Lemma step_ids_in_range (st : TaskManager * storage) (o : op) :
  1 <= next_id st.1 -> ids_in_range st.1 ->
  1 <= next_id (step st o).1 /\ ids_in_range (step st o).1.
Proof.
  unfold ids_in_range. intros Hpos H.
  destruct o as [now ttl desc prio due|now id ttl desc prio s due|id]; simpl.
  - destruct (add_task now st.1 st.2 ttl desc prio due) as [[[t self'] fs']| |] eqn:E;
      [|done|done].
    apply add_task_inv in E as (Hid & -> & _). simpl. split; [lia|].
    apply Forall_app. split.
    + eapply Forall_impl; [exact H|]. intros x (n & Hn & Hr). exists n. split; [done|lia].
    + constructor; [|constructor]. exists (next_id st.1). split; [done|lia].
  - unfold update_task. destruct (get_task st.1 id); [|done]. simpl. split; [done|].
    apply (Forall_fmap_id (fun o => exists n, o = Some n /\ 1 <= n < next_id st.1)
                          (tasks st.1)); [|done].
    apply update_first_ids. intros; apply apply_update_id.
  - unfold delete_task. destruct (get_task st.1 id); [|done]. simpl. split; [done|].
    eapply Forall_elem_impl; [apply remove_first_elem | | exact H]. done.
Qed.

Lemma run_ids_in_range (ops : list op) (st : TaskManager * storage) :
  1 <= next_id st.1 -> ids_in_range st.1 ->
  1 <= next_id (run st ops).1 /\ ids_in_range (run st ops).1.
Proof.
  revert st. induction ops as [|o ops IH]; intros st Hpos H; [done|].
  rewrite run_cons. destruct (step_ids_in_range st o Hpos H). by apply IH.
Qed.

Lemma NoDup_fmap_elem_eq {A B : Type} (f : A -> B) (l : list A) (x y : A) :
  NoDup (f <$> l) -> x ∈ l -> y ∈ l -> f x = f y -> x = y.
Proof.
  induction l as [|a l IH]; [by intros _ ?%elem_of_nil|].
  rewrite fmap_cons. intros [Hnotin Hnd]%NoDup_cons Hx Hy Heq.
  apply elem_of_cons in Hx as [->|Hx]; apply elem_of_cons in Hy as [->|Hy].
  - done.
  - destruct Hnotin. rewrite Heq. by apply list_elem_of_fmap_2.
  - destruct Hnotin. rewrite <- Heq. by apply list_elem_of_fmap_2.
  - by apply IH.
Qed.

(** X11: in every store grown from the empty one by [add_task],
    [update_task] and [delete_task] calls, each task carries an
    identifier between 1 and [next_id - 1], no two tasks share one, and
    so [get_task] finds any stored task under its identifier. *)
Theorem reachable_identifiers (ops : list op) :
  let self := (run (empty_store, no_file) ops).1 in
  1 <= next_id self /\
  Forall (fun t => exists n, task_id t = Some n /\ 1 <= n < next_id self) (tasks self) /\
  NoDup (task_id <$> tasks self) /\
  (forall t id, In t (tasks self) -> task_id t = Some id -> get_task self id = Some t).
Proof.
  intros self.
  destruct (run_ids_in_range ops (empty_store, no_file)) as [Hpos Hrange];
    [simpl; lia | constructor |].
  destruct (run_ids_fresh ops (empty_store, no_file) empty_store_ids_fresh) as [Hnd _].
  fold self in Hpos, Hrange, Hnd. split_and!; try done.
  intros t id Hin Hid.
  destruct (get_task_is_Some self id) as [t' Hget]; [by exists t|].
  rewrite Hget. f_equal.
  apply get_task_Some in Hget as (pre & post & Hsplit & _ & Hid').
  apply (NoDup_fmap_elem_eq task_id (tasks self)); try done.
  - rewrite Hsplit. apply elem_of_app. right. apply list_elem_of_here.
  - by apply list_elem_of_In.
  - congruence.
Qed.

Lemma update_first_length (f : Task -> Task) (id : Z) (l : list Task) :
  length (update_first f id l) = length l.
Proof.
  induction l as [|t l IH]; simpl; [done|].
  destruct (has_id id t); simpl; [done | by rewrite IH].
Qed.

Lemma remove_first_length (id : Z) (l : list Task) :
  (length (remove_first id l) <= length l)%nat.
Proof.
  induction l as [|t l IH]; simpl; [done|].
  destruct (has_id id t); simpl; lia.
Qed.

Lemma step_counts (st : TaskManager * storage) (o : op) :
  next_id st.1 <= next_id (step st o).1 /\
  (writes st.2 <= writes (step st o).2)%nat /\
  Z.of_nat (length (tasks (step st o).1)) - next_id (step st o).1 <=
    Z.of_nat (length (tasks st.1)) - next_id st.1.
Proof.
  destruct o as [now ttl desc prio due|now id ttl desc prio s due|id]; simpl.
  - destruct (add_task now st.1 st.2 ttl desc prio due) as [[[t self'] fs']| |] eqn:E;
      [|split_and!; lia|split_and!; lia].
    apply add_task_inv in E as (_ & -> & ->). simpl. rewrite length_app. simpl.
    split_and!; lia.
  - unfold update_task. destruct (get_task st.1 id); simpl; [|split_and!; lia].
    rewrite update_first_length. split_and!; lia.
  - unfold delete_task. destruct (get_task st.1 id); simpl; [|split_and!; lia].
    pose proof (remove_first_length id (tasks st.1)). split_and!; lia.
Qed.

(** X12: along any sequence of store calls [next_id] and the number of
    writes to the file never decrease, and the number of tasks grows no
    faster than [next_id]; a store grown from the empty one therefore
    never holds more than [next_id - 1] tasks. *)
Theorem run_counts (ops : list op) :
  (forall st,
     next_id st.1 <= next_id (run st ops).1 /\
     (writes st.2 <= writes (run st ops).2)%nat /\
     Z.of_nat (length (tasks (run st ops).1)) - next_id (run st ops).1 <=
       Z.of_nat (length (tasks st.1)) - next_id st.1) /\
  Z.of_nat (length (tasks (run (empty_store, no_file) ops).1)) <=
    next_id (run (empty_store, no_file) ops).1 - 1.
Proof.
  assert (H : forall st,
     next_id st.1 <= next_id (run st ops).1 /\
     (writes st.2 <= writes (run st ops).2)%nat /\
     Z.of_nat (length (tasks (run st ops).1)) - next_id (run st ops).1 <=
       Z.of_nat (length (tasks st.1)) - next_id st.1).
  { induction ops as [|o ops IH]; intros st; [simpl; lia|].
    rewrite run_cons. destruct (step_counts st o) as (H1 & H2 & H3).
    destruct (IH (step st o)) as (H4 & H5 & H6). lia. }
  split; [exact H|].
  destruct (H (empty_store, no_file)) as (_ & _ & Hlen). simpl in Hlen. lia.
Qed.

(** ** Persistence across store calls *)

Lemma step_synced (st : TaskManager * storage) (o : op) :
  synced st -> synced (step st o).
Proof.
  intros H. destruct o as [now ttl desc prio due|now id ttl desc prio s due|id]; simpl.
  - destruct (add_task now st.1 st.2 ttl desc prio due) as [[[t self'] fs']| |] eqn:E;
      [|done|done].
    apply add_task_inv in E as (_ & _ & ->). right. simpl. split; [done|lia].
  - unfold update_task. destruct (get_task st.1 id); [|by destruct st].
    right. simpl. split; [done|lia].
  - unfold delete_task. destruct (get_task st.1 id); [|by destruct st].
    right. simpl. split; [done|lia].
Qed.

Lemma run_synced (ops : list op) (st : TaskManager * storage) :
  synced st -> synced (run st ops).
Proof.
  revert st. induction ops as [|o ops IH]; intros st H; [done|].
  rewrite run_cons. by apply IH, step_synced.
Qed.

Lemma init_of_dump (clock : nat -> string) (self : TaskManager) (fs : storage) :
  content fs = Some (Document (dump self)) ->
  TaskManager_init clock fs =
  loaded ← load_all clock 0 ((fun t => JDict (to_dict t)) <$> tasks self);
  Ok {| tasks := loaded; next_id := next_id self |}.
Proof.
  intros H. unfold TaskManager_init, _load_tasks. rewrite H. reflexivity.
Qed.

(** X13: after any sequence of store calls starting from the empty store
    and no file, either nothing has been written and the store is still
    empty, or the file holds exactly the document [_save_tasks] writes
    for the current store: no successful change is left unsaved. *)
Theorem run_file_reflects_store (ops : list op) :
  let st := run (empty_store, no_file) ops in
  (st = (empty_store, no_file)) \/
  (content st.2 = Some (Document (dump st.1)) /\ (0 < writes st.2)%nat).
Proof.
  intros st. apply (run_synced ops (empty_store, no_file)). by left.
Qed.

(** X14: a new [TaskManager] built over the file left by any sequence of
    store calls loads exactly the store those calls ended with, provided
    no task's title has been blanked. *)
Theorem reload_after_run (clock : nat -> string) (ops : list op) :
  let st := run (empty_store, no_file) ops in
  Forall (fun t => title t <> EmptyString) (tasks st.1) ->
  TaskManager_init clock st.2 = Ok st.1.
Proof.
  intros st Hne.
  destruct (run_synced ops (empty_store, no_file) (or_introl eq_refl)) as [Heq|[Hc _]];
    fold st in Heq || fold st in Hc.
  - by rewrite Heq.
  - rewrite (init_of_dump clock st.1 st.2 Hc).
    pose proof (run_trimmed ops (empty_store, no_file) (List.Forall_nil _)) as Htr.
    fold st in Htr. rewrite load_all_storable; [by destruct (st.1)|].
    rewrite Forall_forall in Hne, Htr. apply Forall_forall.
    intros t Ht. destruct (Htr t Ht). split_and!; auto.
Qed.

Lemma reload_after_run_witness :
  let ops := [Add "t0" "  Buy milk " "" HIGH None;
              Add "t1" "Call dentist" " soon " MEDIUM (Some "2020-01-01T00:00:00");
              Delete 1;
              Update "t2" 2 None None None (Some COMPLETED) None] in
  let st := run (empty_store, no_file) ops in
  Forall (fun t => title t <> EmptyString) (tasks st.1) /\
  TaskManager_init (fun _ => "t3") st.2 = Ok st.1.
Proof.
  intros ops st.
  assert (Hne : Forall (fun t => title t <> EmptyString) (tasks st.1)).
  { repeat constructor; discriminate. }
  split; [exact Hne|]. exact (reload_after_run (fun _ => "t3") ops Hne).
Defined.

(** ** Loading *)

Lemma load_all_Ok_storable (clock : nat -> string) (l : list json) (i : nat)
    (ts : list Task) :
  load_all clock i l = Ok ts -> Forall storable ts.
Proof.
  revert i ts. induction l as [|v l IH]; intros i ts; simpl.
  - intros [= <-]. constructor.
  - destruct (from_dict_json (clock i) v) as [t| |] eqn:Et; simpl; [|done|done].
    destruct (load_all clock (S i) l) as [ts'| |] eqn:El; simpl; [|done|done].
    intros [= <-]. constructor; [|by eapply IH].
    destruct v; simpl in Et; try done. by eapply from_dict_Ok_storable.
Qed.

Lemma init_Ok_storable (clock : nat -> string) (fs : storage) (self : TaskManager) :
  TaskManager_init clock fs = Ok self -> Forall storable (tasks self).
Proof.
  unfold TaskManager_init, _load_tasks.
  destruct (content fs) as [[raw|data]|]; [done| |by intros [= <-]; constructor].
  destruct data as [| | | | |d]; try done.
  destruct (d !! "tasks") as [stored|]; [|done].
  destruct (json_iter stored) as [items| |]; simpl; [|done|done].
  destruct (load_all clock 0 items) as [loaded| |] eqn:El; simpl; [|done|done].
  destruct (typed _); simpl; [|done|done].
  intros [= <-]. simpl. by eapply load_all_Ok_storable.
Qed.

(** X15: whatever store a [TaskManager] loads from a file, saving it and
    loading the saved file again, at any time, gives that same store:
    loading leaves nothing that a save and reload would change. *)
Theorem load_save_reload (clock clock' : nat -> string) (fs fs' : storage)
    (self : TaskManager) :
  TaskManager_init clock fs = Ok self ->
  TaskManager_init clock' (_save_tasks self fs') = Ok self.
Proof.
  intros H%init_Ok_storable.
  rewrite init_after_save, (load_all_storable _ _ _ H). by destruct self.
Qed.

Lemma load_save_reload_witness :
  TaskManager_init (fun _ => "a") sample_disk = Ok sample_manager /\
  TaskManager_init (fun _ => "b") (_save_tasks sample_manager no_file) = Ok sample_manager.
Proof.
  assert (H : TaskManager_init (fun _ => "a") sample_disk = Ok sample_manager) by reflexivity.
  split; [exact H|].
  exact (load_save_reload (fun _ => "a") (fun _ => "b") sample_disk no_file sample_manager H).
Defined.

(** X16: a stored document without the ["next_id"] key loads with
    [next_id = 1], whichever identifiers its tasks carry; the next
    [add_task] then hands out identifier 1 again. *)
Theorem load_without_next_id (clock : nat -> string) (w : nat) (l : list Task)
    (now ttl desc prio : string) (due : option string) :
  Forall storable l ->
  strip ttl <> EmptyString ->
  let fs := {| content :=
                 Some (Document (JDict {[ "tasks" := JList ((fun t => JDict (to_dict t)) <$> l) ]}));
               writes := w |} in
  let self := {| tasks := l; next_id := 1 |} in
  TaskManager_init clock fs = Ok self /\
  exists t self' fs',
    add_task now self fs ttl desc prio due = Ok (t, self', fs') /\
    task_id t = Some 1 /\ tasks self' = l ++ [t].
Proof.
  intros Hl Httl fs self. split.
  - subst fs self. unfold TaskManager_init, _load_tasks, dict_get. cbn [content].
    rewrite lookup_singleton_eq, lookup_singleton_ne by done.
    cbn [json_iter mbind result_bind]. rewrite (load_all_storable _ _ _ Hl). reflexivity.
  - eexists _, _, _. split; [by apply add_task_ok|]. done.
Qed.

Lemma load_without_next_id_witness :
  let fs := {| content :=
                 Some (Document (JDict {[ "tasks" :=
                    JList ((fun t => JDict (to_dict t)) <$> [sample_task]) ]}));
               writes := 0 |} in
  Forall storable [sample_task] /\
  strip "Call dentist" <> EmptyString /\
  TaskManager_init (fun _ => "a") fs = Ok {| tasks := [sample_task]; next_id := 1 |} /\
  exists t self' fs',
    add_task "b" {| tasks := [sample_task]; next_id := 1 |} fs "Call dentist" "" LOW None
      = Ok (t, self', fs') /\
    task_id t = Some 1 /\ task_id sample_task = Some 1.
Proof.
  intros fs.
  assert (Hl : Forall storable [sample_task]) by (repeat constructor; discriminate).
  assert (Ht : strip "Call dentist" <> EmptyString) by discriminate.
  destruct (load_without_next_id (fun _ => "a") 0 [sample_task] "b" "Call dentist" "" LOW None
              Hl Ht) as [Hinit (t & self' & fs' & Hadd & Hid & _)].
  split; [exact Hl|]. split; [exact Ht|]. split; [exact Hinit|].
  exists t, self', fs'. split; [exact Hadd|]. split; [exact Hid | reflexivity].
Defined.

Lemma load_all_app_storable (clock : nat -> string) (pre : list Task) (rest : list json)
    (i : nat) :
  Forall storable pre ->
  load_all clock i (((fun t => JDict (to_dict t)) <$> pre) ++ rest) =
  ts ← load_all clock (i + length pre) rest; Ok (pre ++ ts).
Proof.
  intros H. revert i. induction H as [|t pre Ht _ IH]; intros i.
  - simpl. rewrite Nat.add_0_r. by destruct (load_all clock i rest).
  - rewrite fmap_cons. cbn [app load_all from_dict_json].
    rewrite (from_dict_to_dict_storable _ _ Ht). cbn [mbind result_bind].
    rewrite IH. replace (S i + length pre)%nat with (i + length (t :: pre))%nat by (simpl; lia).
    by destruct (load_all clock (i + length (t :: pre)) rest).
Qed.

(** X17: loading is all or nothing: when a stored entry has no ["title"]
    key and the entries before it are well-formed tasks, the constructor
    of [TaskManager] raises [KeyError]; no store is built from the entries
    that did load. *)
Theorem load_entry_without_title (clock : nat -> string) (w : nat) (pre : list Task)
    (bad : gmap string json) (post : list json) (rest : gmap string json) :
  Forall storable pre ->
  bad !! "title" = None ->
  TaskManager_init clock
    {| content :=
         Some (Document (JDict (<["tasks" :=
            JList (((fun t => JDict (to_dict t)) <$> pre) ++ JDict bad :: post)]> rest)));
       writes := w |} = Raise KeyError.
Proof.
  intros Hpre Hbad. unfold TaskManager_init, _load_tasks. cbn [content].
  rewrite lookup_insert_eq. cbn [json_iter mbind result_bind].
  rewrite (load_all_app_storable _ _ _ _ Hpre). cbn [load_all from_dict_json].
  rewrite (from_dict_no_title _ _ Hbad). done.
Qed.

Lemma load_entry_without_title_witness :
  let bad : gmap string json := {[ "description" := JStr "no title here" ]} in
  let rest : gmap string json := {[ "next_id" := JInt 3 ]} in
  Forall storable [sample_task] /\
  bad !! "title" = None /\
  TaskManager_init (fun _ => "a")
    {| content :=
         Some (Document (JDict (<["tasks" :=
            JList (((fun t => JDict (to_dict t)) <$> [sample_task]) ++ JDict bad :: [])]> rest)));
       writes := 4 |} = Raise KeyError.
Proof.
  intros bad rest.
  assert (Hl : Forall storable [sample_task]) by (repeat constructor; discriminate).
  split; [exact Hl|]. split; [reflexivity|].
  exact (load_entry_without_title (fun _ => "a") 4 [sample_task] bad [] rest Hl eq_refl).
Defined.

(** ** Updating, again *)

Lemma apply_update_twice (now1 now2 : string) (ttl desc prio st due : option string) (t : Task) :
  apply_update now2 ttl desc prio st due (apply_update now1 ttl desc prio st due t) =
  apply_update now2 ttl desc prio st due t.
Proof.
  rewrite !apply_update_fields. simpl. destruct ttl, desc, prio, st, due; reflexivity.
Qed.

Lemma find_update_first_other (f : Task -> Task) (id j : Z) (l : list Task) :
  j <> id -> (forall t, task_id (f t) = task_id t) ->
  List.find (has_id j) (update_first f id l) = List.find (has_id j) l.
Proof.
  intros Hne Hf. induction l as [|t l IH]; simpl; [done|].
  destruct (has_id id t) eqn:E; simpl.
  - apply has_id_true in E.
    assert (H1 : has_id j t = false) by (apply has_id_false; rewrite E; congruence).
    assert (H2 : has_id j (f t) = false) by (apply has_id_false; rewrite Hf, E; congruence).
    by rewrite H1, H2.
  - by rewrite IH.
Qed.

(** X18: repeating an [update_task] call with the same arguments changes
    nothing further except [updated_at]: the store after both calls is the
    store a single call at the later time would have produced, with the
    same return value and the same file content. *)
Theorem update_task_twice (now1 now2 : string) (self : TaskManager) (fs : storage) (id : Z)
    (ttl desc prio st due : option string) :
  let r1 := update_task now1 self fs id ttl desc prio st due in
  let r2 := update_task now2 r1.1.2 r1.2 id ttl desc prio st due in
  let r := update_task now2 self fs id ttl desc prio st due in
  r1.1.1 = r.1.1 /\ r2.1.1 = r.1.1 /\ r2.1.2 = r.1.2 /\ content r2.2 = content r.2.
Proof.
  intros r1 r2 r. subst r1 r2 r.
  destruct (get_task self id) as [t|] eqn:Hget.
  - destruct (proj1 (get_task_Some self id t) Hget) as (pre & post & Hsplit & Hpre & Hid).
    rewrite (update_task_found now1 self fs id ttl desc prio st due pre post t Hsplit Hpre Hid).
    rewrite (update_task_found now2 self fs id ttl desc prio st due pre post t Hsplit Hpre Hid).
    cbn [fst snd].
    erewrite (update_task_found now2 _ _ id ttl desc prio st due pre post
                (apply_update now1 ttl desc prio st due t));
      [| reflexivity | exact Hpre | by rewrite apply_update_id].
    cbn [fst snd next_id]. rewrite apply_update_twice. done.
  - unfold update_task. rewrite Hget. cbn [fst snd]. rewrite Hget. done.
Qed.

(** X19: a successful [update_task] keeps the number of tasks, their
    order and their identifiers; the task found under the identifier is
    the old one with the assignments applied, and every other lookup
    gives what it gave before. *)
Theorem update_task_lookups (now : string) (self self' : TaskManager) (fs fs' : storage)
    (id : Z) (ttl desc prio st due : option string) :
  update_task now self fs id ttl desc prio st due = (true, self', fs') ->
  length (tasks self') = length (tasks self) /\
  task_id <$> tasks self' = task_id <$> tasks self /\
  (exists t, get_task self id = Some t /\
             get_task self' id = Some (apply_update now ttl desc prio st due t)) /\
  (forall j, j <> id -> get_task self' j = get_task self j).
Proof.
  unfold update_task. destruct (get_task self id) as [t|] eqn:Hget; [|discriminate].
  intros [= <- _]. cbn [tasks]. split_and!.
  - apply update_first_length.
  - apply update_first_ids. intros; apply apply_update_id.
  - exists t. split; [done|].
    destruct (proj1 (get_task_Some self id t) Hget) as (pre & post & Hsplit & Hpre & Hid).
    apply get_task_Some. exists pre, post. cbn [tasks].
    rewrite Hsplit, (update_first_split _ _ _ _ _ Hpre Hid).
    split_and!; [done | done | by rewrite apply_update_id].
  - intros j Hne. unfold get_task. cbn [tasks].
    apply find_update_first_other; [done|]. intros; apply apply_update_id.
Qed.

Lemma update_task_lookups_witness :
  let r := update_task "2025-01-05T10:00:00" sample_store no_file 1
                       None (Some " two litres ") None None None in
  r.1.1 = true /\
  length (tasks r.1.2) = 1%nat /\
  get_task r.1.2 1 =
    Some {| title := "Buy milk"; description := "two litres"; priority := HIGH;
            status := CANCELLED; due_date := Some "2020-01-01T00:00:00"; task_id := Some 1;
            created_at := "2019-12-01T08:00:00"; updated_at := "2025-01-05T10:00:00" |}.
Proof.
  intros r. split; [reflexivity|].
  destruct (update_task_lookups "2025-01-05T10:00:00" sample_store r.1.2 no_file r.2 1
              None (Some " two litres ") None None None eq_refl)
    as (Hlen & _ & (t & Hold & Hnew) & _).
  split; [exact Hlen|]. rewrite Hnew.
  injection Hold as <-. reflexivity.
Defined.

(** ** Listing, again *)

Lemma filter_filter_andb {A : Type} (p q : A -> bool) (l : list A) :
  List.filter q (List.filter p l) = List.filter (fun x => p x && q x) l.
Proof.
  induction l as [|x l IH]; simpl; [done|].
  destruct (p x); simpl; [|done]. destruct (q x); by rewrite IH.
Qed.

Lemma filter_all {A : Type} (p : A -> bool) (l : list A) :
  (forall x, p x = true) -> List.filter p l = l.
Proof.
  intros H. induction l as [|x l IH]; simpl; [done|]. by rewrite H, IH.
Qed.

Lemma list_tasks_filter (self : TaskManager) (st prio : option string) :
  list_tasks self st prio =
  List.filter (fun t => passes st (status t) && passes prio (priority t)) (tasks self).
Proof.
  unfold list_tasks, passes, status_is, priority_is.
  destruct st as [[|c s]|], prio as [[|c' s']|]; cbn [str_truthy negb orb];
    rewrite ?filter_filter_andb; try done;
    try (symmetry; by apply filter_all);
    apply filter_ext; intros t; by rewrite ?andb_true_r.
Qed.

(** X20: [list_tasks] returns, in stored order, exactly the tasks that
    pass both filters, where a filter that is absent or the empty string
    lets every task pass and any other filter requires equality with the
    field. *)
Theorem list_tasks_spec (self : TaskManager) (st prio : option string) :
  list_tasks self st prio =
    List.filter (fun t => passes st (status t) && passes prio (priority t)) (tasks self) /\
  list_tasks self st prio `sublist_of` tasks self /\
  (forall t, In t (list_tasks self st prio) <->
             In t (tasks self) /\
             (forall v, st = Some v -> v <> EmptyString -> status t = v) /\
             (forall v, prio = Some v -> v <> EmptyString -> priority t = v)).
Proof.
  split; [apply list_tasks_filter|]. split.
  - rewrite list_tasks_filter. induction (tasks self) as [|t l IH]; simpl; [constructor|].
    destruct (passes st (status t) && passes prio (priority t)).
    + by apply sublist_skip.
    + by apply sublist_cons.
  - intros t. rewrite list_tasks_filter, filter_In, andb_true_iff.
    assert (Hp : forall flt field, passes flt field = true <->
                   forall v, flt = Some v -> v <> EmptyString -> field = v).
    { intros [[|c s]|] field; simpl; split; try done.
      - intros _ v [= <-] Hne. done.
      - intros H%String.eqb_eq v [= <-] _. done.
      - intros H. apply String.eqb_eq. by apply H. }
    rewrite !Hp. done.
Qed.

(** X21: the two filters of [list_tasks] act independently: filtering by
    both is filtering by status and then by priority, or the other way
    round, and filtering a result again by the same filters changes
    nothing. *)
Theorem list_tasks_compose (self : TaskManager) (st prio : option string) :
  list_tasks self st prio =
    list_tasks (with_tasks self (list_tasks self st None)) None prio /\
  list_tasks self st prio =
    list_tasks (with_tasks self (list_tasks self None prio)) st None /\
  list_tasks (with_tasks self (list_tasks self st prio)) st prio = list_tasks self st prio.
Proof.
  rewrite !list_tasks_filter. cbn [with_tasks tasks passes]. rewrite !filter_filter_andb.
  split_and!; apply filter_ext; intros t;
    destruct (passes st (status t)), (passes prio (priority t)); done.
Qed.

(** ** Colours of the command line *)

(** X22: [get_priority_color] and [get_status_color] fall back to white
    exactly for values outside their enumeration, and within each
    enumeration different values get different colours. *)
Theorem color_tables :
  (forall p, cli.get_priority_color p = cli.WHITE <->
             p <> LOW /\ p <> MEDIUM /\ p <> HIGH /\ p <> CRITICAL) /\
  (forall s, cli.get_status_color s = cli.WHITE <->
             s <> TODO /\ s <> IN_PROGRESS /\ s <> COMPLETED /\ s <> CANCELLED) /\
  (forall p q, In p [LOW; MEDIUM; HIGH; CRITICAL] -> In q [LOW; MEDIUM; HIGH; CRITICAL] ->
               cli.get_priority_color p = cli.get_priority_color q -> p = q) /\
  (forall s r, In s [TODO; IN_PROGRESS; COMPLETED; CANCELLED] ->
               In r [TODO; IN_PROGRESS; COMPLETED; CANCELLED] ->
               cli.get_status_color s = cli.get_status_color r -> s = r).
Proof.
  split_and!.
  - intros p. unfold cli.get_priority_color.
    destruct (decide (p = LOW)) as [->|H1]; [split; [discriminate | by intros [? _]]|].
    destruct (decide (p = MEDIUM)) as [->|H2]; [split; [discriminate | by intros (_ & ? & _)]|].
    destruct (decide (p = HIGH)) as [->|H3]; [split; [discriminate | by intros (_ & _ & ? & _)]|].
    destruct (decide (p = CRITICAL)) as [->|H4];
      [split; [discriminate | by intros (_ & _ & _ & ?)]|].
    rewrite !lookup_insert_ne, lookup_singleton_ne by done. done.
  - intros s. unfold cli.get_status_color.
    destruct (decide (s = TODO)) as [->|H1]; [split; [discriminate | by intros [? _]]|].
    destruct (decide (s = IN_PROGRESS)) as [->|H2];
      [split; [discriminate | by intros (_ & ? & _)]|].
    destruct (decide (s = COMPLETED)) as [->|H3];
      [split; [discriminate | by intros (_ & _ & ? & _)]|].
    destruct (decide (s = CANCELLED)) as [->|H4];
      [split; [discriminate | by intros (_ & _ & _ & ?)]|].
    rewrite !lookup_insert_ne, lookup_singleton_ne by done. done.
  - intros p q Hp Hq. simpl in Hp, Hq. destruct_or!; subst; try done; discriminate.
  - intros s r Hs Hr. simpl in Hs, Hr. destruct_or!; subst; try done; discriminate.
Qed.

(** ** The commands *)

Lemma init_save_storable (clock : nat -> string) (self : TaskManager) (fs : storage) :
  Forall storable (tasks self) ->
  TaskManager_init clock (_save_tasks self fs) = Ok self.
Proof.
  intros H. rewrite init_after_save, (load_all_storable _ _ _ H). by destruct self.
Qed.

Lemma is_overdue_completed (parse : Z -> string -> parsed) (today clock : Z) (t : Task) :
  status t = COMPLETED ->
  (forall s, due_date t = Some s -> parse today s <> ParseOverflow) ->
  is_overdue parse today clock t = Ok false.
Proof.
  intros Hst Hno. destruct (is_overdue parse today clock t) as [[|]|e|] eqn:E.
  - apply is_overdue_true_iff in E as (_ & _ & _ & _ & _ & _ & Hne). done.
  - done.
  - apply is_overdue_Raise in E as [_ (s & Hd & _ & Hp)]. destruct (Hno s Hd Hp).
  - by apply is_overdue_not_Untyped in E.
Qed.

(** X24: [show], [update], [delete] and [complete] on an identifier that
    no stored task carries print the not-found message, return with exit
    status 0 and leave the file untouched. *)
Theorem cli_not_found (parse : Z -> string -> parsed) (clock : nat -> string)
    (now : string) (today znow : Z) (fs : storage) (manager : TaskManager) (id : Z)
    (st' prio' ttl' desc' due' : option string) :
  TaskManager_init clock fs = Ok manager ->
  Forall (fun t => task_id t <> Some id) (tasks manager) ->
  let not_found := Ok {| cli.printed := cli.TaskNotFound id;
                         cli.exit_status := 0; cli.disk := fs |} in
  cli.show parse clock today znow fs id = not_found /\
  cli.update clock now fs id st' prio' ttl' desc' due' = not_found /\
  cli.delete clock fs id = not_found /\
  cli.complete clock now fs id = not_found.
Proof.
  intros H Habs. simpl.
  unfold cli.show, cli.update, cli.delete, cli.complete. rewrite H.
  rewrite delete_task_absent_helper by done.
  apply get_task_None in Habs. unfold update_task. rewrite Habs. done.
Qed.

Lemma cli_not_found_witness :
  let clock := fun _ : nat => "a" in
  TaskManager_init clock sample_disk = Ok sample_manager /\
  Forall (fun t => task_id t <> Some 999) (tasks sample_manager) /\
  cli.complete clock "b" sample_disk 999 =
    Ok {| cli.printed := cli.TaskNotFound 999; cli.exit_status := 0;
          cli.disk := sample_disk |} /\
  cli.delete clock sample_disk 999 =
    Ok {| cli.printed := cli.TaskNotFound 999; cli.exit_status := 0;
          cli.disk := sample_disk |}.
Proof.
  intros clock.
  assert (H : TaskManager_init clock sample_disk = Ok sample_manager) by reflexivity.
  assert (Habs : Forall (fun t => task_id t <> Some 999) (tasks sample_manager)).
  { repeat constructor; discriminate. }
  destruct (cli_not_found parse_sample clock "b" 0 0 sample_disk sample_manager 999
              None None None None None H Habs) as (_ & _ & Hdel & Hcomplete).
  split; [exact H|]. split; [exact Habs|]. split; [exact Hcomplete | exact Hdel].
Defined.

(** X25: [add] with a priority outside click's choices exits with status
    2 and leaves the file untouched, whatever the file holds.  With a
    listed priority, over a file that loads: a title that is empty once
    trimmed is reported as invalid input with exit status 1 and the file
    untouched; any other title gets the loaded [next_id], which is
    printed, the exit status is 0, the file is written once, and the next
    command loads the old tasks followed by the new one. *)
Theorem cli_add_spec (clock : nat -> string) (now : string) (fs : storage)
    (ttl desc prio : string) (due : option string) :
  (prio ∉ cli.priority_choices ->
   cli.add clock now fs ttl desc prio due =
     Ok {| cli.printed := cli.UsageError; cli.exit_status := 2; cli.disk := fs |}) /\
  (forall manager,
     prio ∈ cli.priority_choices ->
     TaskManager_init clock fs = Ok manager ->
     (strip ttl = EmptyString ->
      cli.add clock now fs ttl desc prio due =
        Ok {| cli.printed := cli.InvalidInput ValueError;
              cli.exit_status := 1; cli.disk := fs |}) /\
     (strip ttl <> EmptyString ->
      exists out,
        cli.add clock now fs ttl desc prio due = Ok out /\
        cli.printed out = cli.TaskAdded (Some (next_id manager)) /\
        cli.exit_status out = 0 /\
        writes (cli.disk out) = S (writes fs) /\
        forall clock',
          TaskManager_init clock' (cli.disk out) =
          Ok {| tasks := tasks manager ++
                         [mkTask (strip ttl) (strip desc) prio TODO due
                                 (Some (next_id manager)) now now];
                next_id := next_id manager + 1 |})).
Proof.
  split.
  - intros Hout. unfold cli.add. by rewrite bool_decide_eq_false_2.
  - intros manager Hin H. unfold cli.add. rewrite bool_decide_eq_true_2 by done.
    cbn [negb]. rewrite H. cbn [mbind result_bind]. split.
    + intros Hb. unfold add_task. by rewrite Task_init_raises.
    + intros Hne. rewrite (add_task_ok now manager fs ttl desc prio due Hne).
      eexists. split; [reflexivity|]. cbn [cli.printed cli.exit_status cli.disk].
      split_and!; try done.
      intros clock'. apply init_save_storable. cbn [tasks].
      apply Forall_app. split; [by eapply init_Ok_storable|].
      constructor; [|constructor]. unfold storable. cbn [title description].
      rewrite !strip_idem. done.
Qed.

Lemma cli_add_spec_witness :
  let clock := fun _ : nat => "a" in
  ("urgent" ∉ cli.priority_choices) /\
  cli.add clock "b" sample_disk "Water plants" "" "urgent" None =
    Ok {| cli.printed := cli.UsageError; cli.exit_status := 2; cli.disk := sample_disk |} /\
  (MEDIUM ∈ cli.priority_choices) /\
  TaskManager_init clock sample_disk = Ok sample_manager /\
  strip "   " = EmptyString /\
  cli.add clock "b" sample_disk "   " "" MEDIUM None =
    Ok {| cli.printed := cli.InvalidInput ValueError;
          cli.exit_status := 1; cli.disk := sample_disk |} /\
  strip " Water plants " <> EmptyString /\
  exists out,
    cli.add clock "b" sample_disk " Water plants " "" MEDIUM None = Ok out /\
    cli.printed out = cli.TaskAdded (Some 3) /\
    cli.exit_status out = 0.
Proof.
  intros clock.
  assert (Hout : "urgent" ∉ cli.priority_choices).
  { intros Hin. apply list_elem_of_In in Hin. simpl in Hin. destruct_or!; done. }
  assert (Hin : MEDIUM ∈ cli.priority_choices).
  { apply list_elem_of_In. right. left. reflexivity. }
  assert (H : TaskManager_init clock sample_disk = Ok sample_manager) by reflexivity.
  assert (Hne : strip " Water plants " <> EmptyString) by discriminate.
  destruct (cli_add_spec clock "b" sample_disk "Water plants" "" "urgent" None) as [Hbadprio _].
  destruct (cli_add_spec clock "b" sample_disk "   " "" MEDIUM None) as [_ Hblank].
  destruct (Hblank sample_manager Hin H) as [Hbad _].
  destruct (cli_add_spec clock "b" sample_disk " Water plants " "" MEDIUM None) as [_ Hok].
  destruct (Hok sample_manager Hin H) as [_ Hgood].
  destruct (Hgood Hne) as (out & Hadd & Hprinted & Hexit & _).
  split; [exact Hout|]. split; [exact (Hbadprio Hout)|]. split; [exact Hin|].
  split; [exact H|]. split; [reflexivity|]. split; [exact (Hbad eq_refl)|].
  split; [exact Hne|]. exists out. split; [exact Hadd|]. split; [exact Hprinted | exact Hexit].
Defined.

Lemma apply_update_status_storable (now v : string) (t : Task) :
  storable t -> storable (apply_update now None None None (Some v) None t).
Proof. intros (H1 & H2 & H3). rewrite apply_update_fields. by split_and!. Qed.

(** X26: [complete] on an identifier that a stored task carries prints
    the completion message and exits with status 0.  A later [show] of
    that identifier displays the same task with status [completed] and
    the new [updated_at] and does not flag it overdue, provided the parser
    does not overflow on its due date; when the parser does overflow,
    [show] fails with exit status 1 although the task is completed. *)
Theorem cli_complete_then_show (clock : nat -> string) (now : string) (fs : storage)
    (manager : TaskManager) (id : Z) (t : Task) :
  TaskManager_init clock fs = Ok manager ->
  get_task manager id = Some t ->
  exists out,
    cli.complete clock now fs id = Ok out /\
    cli.printed out = cli.TaskCompleted id /\
    cli.exit_status out = 0 /\
    forall parse clock' today znow,
      ((forall s, due_date t = Some s -> parse today s <> ParseOverflow) ->
       cli.show parse clock' today znow (cli.disk out) id =
       Ok {| cli.printed := cli.TaskDetails (set_updated_at (set_status t COMPLETED) now) false;
             cli.exit_status := 0; cli.disk := cli.disk out |}) /\
      (forall s, due_date t = Some s -> s <> EmptyString ->
                 parse today s = ParseOverflow ->
       cli.show parse clock' today znow (cli.disk out) id =
       Ok {| cli.printed := cli.CommandFailed OverflowError;
             cli.exit_status := 1; cli.disk := cli.disk out |}).
Proof.
  intros H Hget.
  destruct (proj1 (get_task_Some manager id t) Hget) as (pre & post & Hsplit & Hpre & Hid).
  pose proof (update_task_found now manager fs id None None None (Some COMPLETED) None
                pre post t Hsplit Hpre Hid) as Hupd. cbn zeta in Hupd.
  unfold cli.complete. rewrite H, Hupd. eexists. split; [reflexivity|].
  cbn [cli.printed cli.exit_status cli.disk]. split_and!; try done.
  intros parse clock' today znow. unfold cli.show.
  pose proof (init_Ok_storable _ _ _ H) as Hst. rewrite Hsplit in Hst.
  apply Forall_app in Hst as [Hst1 Hst2]. inversion Hst2 as [|? ? Ht Hst3]; subst.
  assert (Hhas : has_id id (apply_update now None None None (Some COMPLETED) None t) = true).
  { apply has_id_true. by rewrite apply_update_id. }
  rewrite init_save_storable.
  - unfold get_task. cbn [tasks]. rewrite (find_app_absent _ _ _ Hpre). cbn [List.find].
    rewrite Hhas. split.
    + intros Hno. rewrite is_overdue_completed; done.
    + intros s Hd Hne Hp.
      assert (Hr : is_overdue parse today znow
                     (apply_update now None None None (Some COMPLETED) None t) =
                   Raise OverflowError).
      { apply is_overdue_Raise. split; [done|]. by exists s. }
      by rewrite Hr.
  - cbn [tasks]. apply Forall_app. split; [done|].
    constructor; [by apply apply_update_status_storable | done].
Qed.

Lemma cli_complete_then_show_witness :
  let clock := fun _ : nat => "a" in
  TaskManager_init clock sample_disk = Ok sample_manager /\
  get_task sample_manager 1 = Some sample_first /\
  is_overdue parse_sample 1700000000000000 1700000000000000 sample_first = Ok true /\
  (forall s, due_date sample_first = Some s ->
             parse_sample 1700000000000000 s <> ParseOverflow) /\
  exists out,
    cli.complete clock "2025-02-01T00:00:00" sample_disk 1 = Ok out /\
    cli.show parse_sample clock 1700000000000000 1700000000000000 (cli.disk out) 1 =
      Ok {| cli.printed :=
              cli.TaskDetails
                (set_updated_at (set_status sample_first COMPLETED) "2025-02-01T00:00:00")
                false;
            cli.exit_status := 0; cli.disk := cli.disk out |}.
Proof.
  intros clock.
  assert (H : TaskManager_init clock sample_disk = Ok sample_manager) by reflexivity.
  assert (Hget : get_task sample_manager 1 = Some sample_first) by reflexivity.
  assert (Hno : forall s, due_date sample_first = Some s ->
                          parse_sample 1700000000000000 s <> ParseOverflow).
  { intros s Hd. injection Hd as <-. discriminate. }
  destruct (cli_complete_then_show clock "2025-02-01T00:00:00" sample_disk sample_manager 1
              sample_first H Hget) as (out & Hout & _ & _ & Hshow).
  split; [exact H|]. split; [exact Hget|]. split; [reflexivity|]. split; [exact Hno|].
  exists out. split; [exact Hout|].
  exact (proj1 (Hshow parse_sample clock 1700000000000000 1700000000000000) Hno).
Defined.

(** X27: over a file whose tasks have pairwise distinct identifiers,
    [delete] of an identifier that a stored task carries prints the
    deletion message and exits with status 0, and a later [show] of that
    identifier reports it as not found. *)
Theorem cli_delete_then_show (clock : nat -> string) (fs : storage)
    (manager : TaskManager) (id : Z) (t : Task) :
  TaskManager_init clock fs = Ok manager ->
  NoDup (task_id <$> tasks manager) ->
  get_task manager id = Some t ->
  exists out,
    cli.delete clock fs id = Ok out /\
    cli.printed out = cli.TaskDeleted id /\
    cli.exit_status out = 0 /\
    forall parse clock' today znow,
      cli.show parse clock' today znow (cli.disk out) id =
      Ok {| cli.printed := cli.TaskNotFound id;
            cli.exit_status := 0; cli.disk := cli.disk out |}.
Proof.
  intros H Hnd Hget. unfold cli.delete, delete_task. rewrite H, Hget.
  eexists. split; [reflexivity|].
  cbn [cli.printed cli.exit_status cli.disk]. split_and!; try done.
  intros parse clock' today znow. unfold cli.show.
  rewrite init_save_storable.
  - assert (Hgone : get_task {| tasks := remove_first id (tasks manager);
                                 next_id := next_id manager |} id = None).
    { apply get_task_None. cbn [tasks]. by apply remove_first_gone. }
    by rewrite Hgone.
  - cbn [tasks]. eapply Forall_elem_impl;
      [apply remove_first_elem | | by eapply init_Ok_storable]. done.
Qed.

Lemma cli_delete_then_show_witness :
  let clock := fun _ : nat => "a" in
  TaskManager_init clock sample_disk = Ok sample_manager /\
  NoDup (task_id <$> tasks sample_manager) /\
  get_task sample_manager 2 = Some sample_second /\
  exists out,
    cli.delete clock sample_disk 2 = Ok out /\
    cli.show parse_sample clock 0 0 (cli.disk out) 2 =
      Ok {| cli.printed := cli.TaskNotFound 2;
            cli.exit_status := 0; cli.disk := cli.disk out |}.
Proof.
  intros clock.
  assert (H : TaskManager_init clock sample_disk = Ok sample_manager) by reflexivity.
  assert (Hget : get_task sample_manager 2 = Some sample_second) by reflexivity.
  assert (Hnd : NoDup (task_id <$> tasks sample_manager)).
  { apply (NoDup_ListNoDup (task_id <$> tasks sample_manager)).
    repeat constructor; simpl; intros Hin; destruct_or?; discriminate || done. }
  destruct (cli_delete_then_show clock sample_disk sample_manager 2 sample_second H Hnd Hget)
    as (out & Hout & _ & _ & Hshow).
  split; [exact H|]. split; [exact Hnd|]. split; [exact Hget|].
  exists out. split; [exact Hout|]. exact (Hshow parse_sample clock 0 0).
Defined.

(** ** Further examples *)

Lemma reachable_identifiers_witness :
  let ops := [Add "2025-01-01T09:00:00" "Buy milk" "" HIGH (Some "2020-01-01T00:00:00");
              Add "2025-01-01T09:05:00" "Call dentist" "" MEDIUM None] in
  (run (empty_store, no_file) ops).1 = sample_manager /\
  In sample_second (tasks sample_manager) /\
  task_id sample_second = Some 2 /\
  get_task sample_manager 2 = Some sample_second.
Proof.
  intros ops.
  assert (Hin : In sample_second (tasks sample_manager)) by (right; left; reflexivity).
  destruct (reachable_identifiers ops) as (_ & _ & _ & Hget).
  split; [reflexivity|]. split; [exact Hin|]. split; [reflexivity|].
  exact (Hget sample_second 2 Hin eq_refl).
Defined.

Lemma list_tasks_spec_witness :
  In sample_first (list_tasks sample_manager (Some EmptyString) (Some HIGH)) /\
  In sample_first (tasks sample_manager) /\
  priority sample_first = HIGH.
Proof.
  destruct (list_tasks_spec sample_manager (Some EmptyString) (Some HIGH)) as (_ & _ & Hiff).
  assert (Hin : In sample_first (tasks sample_manager)) by (left; reflexivity).
  split; [|split; [exact Hin | reflexivity]].
  apply Hiff. split; [exact Hin|]. split.
  - intros v Hv Hne. injection Hv as <-. destruct Hne. reflexivity.
  - intros v Hv _. injection Hv as <-. reflexivity.
Defined.

Lemma color_tables_witness :
  cli.get_priority_color "urgent" = cli.WHITE /\
  "urgent" <> LOW /\
  cli.get_status_color COMPLETED <> cli.WHITE.
Proof.
  destruct color_tables as (Hp & Hs & _).
  assert (Hne : "urgent" <> LOW /\ "urgent" <> MEDIUM /\ "urgent" <> HIGH /\
                "urgent" <> CRITICAL) by (split_and!; discriminate).
  split; [exact (proj2 (Hp "urgent") Hne)|]. split; [discriminate|].
  intros Hw. destruct (proj1 (Hs COMPLETED) Hw) as (_ & _ & Hc & _). apply Hc. reflexivity.
Defined.
